(** * Faikin estimated power: a shallow embedding of [faikin_power/__init__.py]

    The app listens to Faikin status messages, derives an estimated power
    from the lifetime energy counter and republishes it over MQTT together
    with a one-time discovery record per unit.

    Modelling conventions.
    - Python [int] is [Z].  Python [float] is modelled by the canonical
      rationals [Qc]: timestamps and wattages are finite numbers, the
      arithmetic is exact, and [nan]/[inf] do not occur.  [float] of an
      [int] beyond the double range raises [OverflowError], as in Python.
    - An exception that no [try] catches ends the handler that raised it:
      the computation stops with [Raised], and the store and the outbox are
      as they were at the raise.
    - The module-level dict [_units] is a [gmap string unit_rec]; a record is
      a Python dict whose keys may be absent, hence the [option] fields.
    - Every [rec] obtained through [_units.setdefault(unit, {})] is the very
      dict stored in [_units]: a write [rec["k"] = v] is a write to the store
      at [unit], and the later [_units[unit] = rec] re-binds the same object.
    - [mqtt.publish] appends to an outbox, a wattage with the value of its
      one-decimal payload; the wall clock read by the handlers is an
      argument.  Logging has no effect on state or outbox and is left out. *)

From Stdlib Require Import ZArith QArith Qcanon Qround Lia Ascii String.
From stdpp Require Import base numbers option list strings pretty gmap.

(** ** Python values met in payloads and in the app configuration *)

#[local] Unset Elimination Schemes.
Inductive pyval :=
| PyNone
| PyBool (b : bool)
| PyInt (z : Z)
| PyFloat (x : Qc)
| PyStr (s : string)
| PyList (l : list pyval)
| PyDict (d : list (string * pyval)).
#[local] Set Elimination Schemes.

(** Builtins whose text-level behaviour is not modelled: [int(str)],
    [float(str)] ([None] when they raise [ValueError]) and [str(value)]. *)
Record Builtins := {
  int_of_str : string → option Z;
  float_of_str : string → option Qc;
  str_of : pyval → string
}.

(** Truth value of an object, as tested by [if x] and [x or y]. *)
Definition truthy (v : pyval) : bool :=
  match v with
  | PyNone => false
  | PyBool b => b
  | PyInt z => negb (z =? 0)%Z
  | PyFloat x => bool_decide (x ≠ 0%Qc)
  | PyStr s => negb (String.eqb s "")
  | PyList l => match l with [] => false | _ => true end
  | PyDict d => match d with [] => false | _ => true end
  end.

(** [int(x)] of a float truncates towards zero. *)
Definition Qc_trunc (x : Qc) : Z :=
  if decide (x < 0)%Qc then Qceiling x else Qfloor x.

(** The least magnitude at which [float(n)] of an [int] raises
    [OverflowError]: halfway between the largest double and 2^1024. *)
Definition float_overflow : Z := 2 ^ 1024 - 2 ^ 970.

(** [float(n)] of an [int]; [None] stands for the raised [OverflowError]. *)
Definition float_of_int (n : Z) : option Qc :=
  if decide (Z.abs n < float_overflow)%Z then Some (Qc_of_Z n) else None.

(** [round(y)] of a float to the nearest integer, ties to the even one. *)
Definition round_half_even (y : Qc) : Z :=
  let f := Qfloor y in
  let frac := (y - Qc_of_Z f)%Qc in
  if decide (frac < Q2Qc (1 # 2))%Qc then f
  else if decide (Q2Qc (1 # 2) < frac)%Qc then (f + 1)%Z
  else if Z.even f then f else (f + 1)%Z.

(** [round(x, 1)]: the nearest multiple of one tenth, ties to the even
    tenth. *)
Definition py_round1 (x : Qc) : Qc :=
  (Qc_of_Z (round_half_even (x * Qc_of_Z 10)) / Qc_of_Z 10)%Qc.

Section Builtin.
Context (B : Builtins).

(** [int(v)]; [None] stands for the raised [TypeError]/[ValueError]. *)
Definition py_int (v : pyval) : option Z :=
  match v with
  | PyBool b => Some (if b then 1 else 0)%Z
  | PyInt z => Some z
  | PyFloat x => Some (Qc_trunc x)
  | PyStr s => int_of_str B s
  | PyNone | PyList _ | PyDict _ => None
  end.

(** [float(v)]; [None] stands for the raised exception. *)
Definition py_float (v : pyval) : option Qc :=
  match v with
  | PyBool b => Some (if b then 1 else 0)%Qc
  | PyInt z => float_of_int z
  | PyFloat x => Some x
  | PyStr s => float_of_str B s
  | PyNone | PyList _ | PyDict _ => None
  end.

(** [str(v)] *)
Definition py_str (v : pyval) : string :=
  match v with
  | PyStr s => s
  | _ => str_of B v
  end.
End Builtin.

(** [max(a, b)] on two floats: the first argument unless the second is
    strictly greater. *)
Definition py_max (a b : Qc) : Qc := if decide (a < b)%Qc then b else a.

(** ** App configuration (the module constants read from [pyscript.app_config]) *)

Record Config := {
  STATUS_PREFIX : string;
  DISCOVERY_PREFIX : string;
  MARGIN_SECONDS_DEFAULT : Qc;   (* float(cfg.get("margin_seconds", 300)) *)
  MARGIN_FACTOR : pyval;         (* cfg.get("margin_factor", 0.5), kept as read *)
  MIN_POWER_W : Qc;              (* float(cfg.get("min_power_w", 0)) *)
  ENABLE_COMP_FALLBACK : bool;
  LOG_LEVEL : string
}.

Definition half : Qc := Q2Qc (1 # 2).

(** The constants obtained from an empty [app_config]. *)
Definition default_config : Config := {|
  STATUS_PREFIX := "state";
  DISCOVERY_PREFIX := "homeassistant";
  MARGIN_SECONDS_DEFAULT := Qc_of_Z 300;
  MARGIN_FACTOR := PyFloat half;
  MIN_POWER_W := 0%Qc;
  ENABLE_COMP_FALLBACK := false;
  LOG_LEVEL := "info"
|}.

(** ** Per-unit rolling state *)

(** One dict of [_units]; [None] is an absent key.  ["discovered"] is only
    ever written with [True], so [false] stands for the absent key. *)
Record unit_rec := {
  last_wh : option Z;
  last_ts : option Qc;
  hold_until : option Qc;
  last_w : option Qc;
  discovered : bool
}.

(** The fresh dict [{}]. *)
Definition empty_rec : unit_rec :=
  {| last_wh := None; last_ts := None; hold_until := None;
     last_w := None; discovered := false |}.

Definition set_last_wh (v : Z) (r : unit_rec) : unit_rec :=
  {| last_wh := Some v; last_ts := last_ts r; hold_until := hold_until r;
     last_w := last_w r; discovered := discovered r |}.
Definition set_last_ts (v : Qc) (r : unit_rec) : unit_rec :=
  {| last_wh := last_wh r; last_ts := Some v; hold_until := hold_until r;
     last_w := last_w r; discovered := discovered r |}.
Definition set_hold_until (v : Qc) (r : unit_rec) : unit_rec :=
  {| last_wh := last_wh r; last_ts := last_ts r; hold_until := Some v;
     last_w := last_w r; discovered := discovered r |}.
Definition set_last_w (v : Qc) (r : unit_rec) : unit_rec :=
  {| last_wh := last_wh r; last_ts := last_ts r; hold_until := hold_until r;
     last_w := Some v; discovered := discovered r |}.
Definition set_discovered (r : unit_rec) : unit_rec :=
  {| last_wh := last_wh r; last_ts := last_ts r; hold_until := hold_until r;
     last_w := last_w r; discovered := true |}.

(** ** Outbound MQTT messages *)

(** The [device] block of the discovery payload. *)
Record device_info := {
  dev_identifiers : list string;
  dev_manufacturer : string;
  dev_model : string;
  dev_name : string;
  dev_configuration_url : option string
}.

(** The discovery payload handed to [json.dumps]. *)
Record discovery_payload := {
  dp_name : string;
  dp_unique_id : string;
  dp_state_topic : string;
  dp_unit_of_measurement : string;
  dp_device_class : string;
  dp_state_class : string;
  dp_icon : string;
  dp_availability_topic : string;
  dp_availability_template : string;
  dp_payload_available : string;
  dp_payload_not_available : string;
  dp_device : device_info
}.

(** One [mqtt.publish] call.  [PowerState unit topic w] is the publish of
    [_publish_power]: [w] is the value of its payload, the text [str(w)] of
    a wattage already rounded to one decimal, qos 0, retained.
    [Discovery unit topic p] is the publish of [_discovery]: payload
    [json.dumps(p)], qos 1, retained. *)
Inductive mqtt_msg :=
| PowerState (unit : string) (topic : string) (watts : Qc)
| Discovery (unit : string) (topic : string) (payload : discovery_payload).

(** ** The effect monad: the store [_units], the outbox and exceptions *)

(** The exceptions that reach a handler's caller. *)
Inductive pyexn := OverflowError.

Inductive outcome (A : Type) :=
| Returned (a : A)
| Raised (e : pyexn).
Arguments Returned {A} a.
Arguments Raised {A} e.

Definition M (A : Type) : Type :=
  gmap string unit_rec → outcome A * gmap string unit_rec * list mqtt_msg.

#[export] Instance M_ret : MRet M := λ A a σ, (Returned a, σ, []).

#[export] Instance M_bind : MBind M := λ A C k m σ,
  let '(r1, σ1, out1) := m σ in
  match r1 with
  | Returned a =>
      let '(r2, σ2, out2) := k a σ1 in (r2, σ2, out1 ++ out2)
  | Raised e => (Raised e, σ1, out1)
  end.

(** [raise e] *)
Definition raise {A} (e : pyexn) : M A := λ σ, (Raised e, σ, []).

(** [_units.setdefault(unit, {})]: the dict of [unit], created when absent. *)
Definition setdefault (unit : string) : M unit_rec := λ σ,
  match σ !! unit with
  | Some r => (Returned r, σ, [])
  | None => (Returned empty_rec, <[unit := empty_rec]> σ, [])
  end.

(** [_units.get(unit, {})]: the dict of [unit], or a fresh one that is not
    stored. *)
Definition get_or_empty (unit : string) : M unit_rec := λ σ,
  (Returned (default empty_rec (σ !! unit)), σ, []).

(** A write [rec[k] = v] through the dict of [unit]. *)
Definition write (unit : string) (f : unit_rec → unit_rec) : M () := λ σ,
  (Returned (), alter f unit σ, []).

Definition mqtt_publish (m : mqtt_msg) : M () := λ σ, (Returned (), σ, [m]).

(** Store and outbox left by a computation, returned or raised. *)
Definition store_of {A} (x : A * gmap string unit_rec * list mqtt_msg) := x.1.2.
Definition outbox_of {A} (x : A * gmap string unit_rec * list mqtt_msg) := x.2.

(** [topic.split("/", 1)[1]]: what follows the first ["/"]; [None] is the
    [IndexError] of a topic without one. *)
Fixpoint after_slash (topic : string) : option string :=
  match topic with
  | EmptyString => None
  | String c rest =>
      if Ascii.eqb c "/"%char then Some rest else after_slash rest
  end.

(** ** MQTT discovery, publishing and the estimators *)

Section App.
Context (B : Builtins) (cfg : Config).

Definition power_topic (unit : string) : string :=
  "faikin/" +:+ unit +:+ "/power_w".

Definition _discovery (unit dev_id : string) (config_url : option string)
  : M () :=
  rec ← setdefault unit;
  if discovered rec then mret ()
  else
    let object_id := unit +:+ "_power" in
    let cfg_topic :=
      DISCOVERY_PREFIX cfg +:+ "/sensor/" +:+ object_id +:+ "/config" in
    let state_topic := power_topic unit in
    let device := {|
      dev_identifiers := [dev_id];
      dev_manufacturer := "RevK";
      dev_model := "Faikin";
      dev_name := "faikin-" +:+ unit;
      dev_configuration_url :=
        match config_url with
        | Some url => if String.eqb url "" then None else Some url
        | None => None
        end |} in
    let payload := {|
      dp_name := "Faikin " +:+ unit +:+ " Power";
      dp_unique_id := dev_id +:+ "_power";
      dp_state_topic := state_topic;
      dp_unit_of_measurement := "W";
      dp_device_class := "power";
      dp_state_class := "measurement";
      dp_icon := "mdi:flash";
      dp_availability_topic := STATUS_PREFIX cfg +:+ "/" +:+ unit;
      dp_availability_template :=
        "{{ (value_json.up | default(true)) | string | lower }}";
      dp_payload_available := "true";
      dp_payload_not_available := "false";
      dp_device := device |} in
    mqtt_publish (Discovery unit cfg_topic payload);;
    write unit set_discovered.

(** The two clamps of [_publish_power]: negative values become [0.0], and
    a positive value is raised to [MIN_POWER_W] when that floor is set. *)
Definition clamp_watts (watts : Qc) : Qc :=
  let watts := if decide (watts < 0)%Qc then 0%Qc else watts in
  if decide (MIN_POWER_W cfg ≠ 0%Qc ∧ (0 < watts)%Qc)
  then py_max watts (MIN_POWER_W cfg)
  else watts.

Definition _publish_power (unit : string) (watts : Qc) : M () :=
  let watts := clamp_watts watts in
  mqtt_publish (PowerState unit (power_topic unit) (py_round1 watts));;
  _ ← setdefault unit;
  write unit (set_last_w watts).

Definition _compute_hold_seconds (last_dt_seconds : Qc) : Qc :=
  let additive :=
    py_max 0%Qc (last_dt_seconds + MARGIN_SECONDS_DEFAULT cfg)%Qc in
  match MARGIN_FACTOR cfg with
  | PyNone => additive
  | v =>
      match py_float B v with
      | Some fac => py_max 0%Qc (last_dt_seconds * (1 + fac))%Qc
      | None => additive
      end
  end.

(** *** Energy-derived power *)

Definition _update_from_energy (unit : string) (wh_now : Z) (ts_now : Qc)
  : M () :=
  rec ← setdefault unit;
  match last_wh rec, last_ts rec with
  | None, _ | _, None =>
      (* first observation *)
      write unit (set_last_wh wh_now);;
      write unit (set_last_ts ts_now);;
      write unit (set_hold_until 0%Qc);;
      _publish_power unit 0%Qc
  | Some last_wh, Some last_ts =>
      if decide (wh_now < last_wh)%Z then
        (* counter reset/rollback *)
        write unit (set_last_wh wh_now);;
        write unit (set_last_ts ts_now);;
        write unit (set_hold_until 0%Qc);;
        _publish_power unit 0%Qc
      else if decide (wh_now = last_wh) then
        (* no change: expire to 0 once the hold window has passed *)
        let hold_until := default 0%Qc (hold_until rec) in
        if decide (hold_until ≠ 0%Qc ∧ (hold_until < ts_now)%Qc) then
          _publish_power unit 0%Qc;;
          write unit (set_hold_until 0%Qc)
        else mret ()
      else
        (* a tick; [float] of the difference is outside any [try] *)
        match float_of_int (wh_now - last_wh) with
        | None => raise OverflowError
        | Some dwh =>
            let dt := py_max half (ts_now - last_ts)%Qc in
            let watts := (dwh * Qc_of_Z 3600 / dt)%Qc in
            write unit (set_last_wh wh_now);;
            write unit (set_last_ts ts_now);;
            let hold_seconds := _compute_hold_seconds dt in
            write unit (set_hold_until (ts_now + hold_seconds)%Qc);;
            _publish_power unit watts
        end
  end.

(** *** Compressor fallback *)

Definition estimate_power_from_comp (comp_hz fanfreq : option Qc) : Qc :=
  match comp_hz with
  | None => 0%Qc
  | Some hz =>
      if decide (hz ≤ 0)%Qc then 0%Qc
      else py_max 0%Qc (hz * Qc_of_Z 50)%Qc
  end.

(** *** The two subscribed handlers *)

(** [str(payload_obj.get("id") or f"faikin-{unit}")] *)
Definition device_id (unit : string) (payload_obj : gmap string pyval)
  : string :=
  let id := default PyNone (payload_obj !! "id") in
  py_str B (if truthy id then id else PyStr ("faikin-" +:+ unit)).

Definition local_url (unit : string) : string :=
  "http://" +:+ unit +:+ ".local/".

Definition faikin_energy_tick (topic : string)
    (payload_obj : gmap string pyval) (clock : Qc) : M () :=
  match after_slash topic with
  | None => mret ()
  | Some unit =>
      _discovery unit (device_id unit payload_obj) (Some (local_url unit));;
      match payload_obj !! "Wh" ≫= py_int B with
      | None => mret ()
      | Some wh => _update_from_energy unit wh clock
      end
  end.

(** The [try] block converting the auxiliary signals: any failure resets
    both to their defaults. *)
Definition comp_fan (payload_obj : gmap string pyval) : Qc * option Qc :=
  let comp := default PyNone (payload_obj !! "comp") in
  let fan := default PyNone (payload_obj !! "fanfreq") in
  match (match comp with PyNone => Some 0%Qc | _ => py_float B comp end) with
  | None => (0%Qc, None)
  | Some c =>
      match (match fan with
             | PyNone => Some None
             | _ => Some <$> py_float B fan
             end) with
      | None => (0%Qc, None)
      | Some f => (c, f)
      end
  end.

Definition faikin_comp_estimate (topic : string)
    (payload_obj : gmap string pyval) (clock : Qc) : M () :=
  if negb (ENABLE_COMP_FALLBACK cfg) then mret ()
  else
    match after_slash topic with
    | None => mret ()
    | Some unit =>
        _discovery unit (device_id unit payload_obj) (Some (local_url unit));;
        rec ← get_or_empty unit;
        let hold_until := default 0%Qc (hold_until rec) in
        let now_ts := clock in
        if decide (hold_until ≠ 0%Qc ∧ (now_ts ≤ hold_until)%Qc) then mret ()
        else
          let '(comp, fan) := comp_fan payload_obj in
          let est := estimate_power_from_comp (Some comp) fan in
          _publish_power unit est
    end.

(** *** Message sequences *)

(** One handler invocation made by the trigger dispatcher, with the value
    the wall clock has during it.  Each invocation is a task of its own: an
    exception ends that invocation and the next one runs as usual. *)
Inductive call :=
| EnergyTick (topic : string) (payload_obj : gmap string pyval) (clock : Qc)
| CompEstimate (topic : string) (payload_obj : gmap string pyval) (clock : Qc).

Definition handle (c : call) : M () :=
  match c with
  | EnergyTick topic payload_obj clock =>
      faikin_energy_tick topic payload_obj clock
  | CompEstimate topic payload_obj clock =>
      faikin_comp_estimate topic payload_obj clock
  end.

(** The handlers run one after the other, each to its return or raise. *)
Fixpoint run (cs : list call) : M () :=
  match cs with
  | [] => mret ()
  | c :: cs => λ σ,
      let '(_, σ1, out1) := handle c σ in
      let '(r, σ2, out2) := run cs σ1 in
      (r, σ2, out1 ++ out2)
  end.
End App.

(** ** Vocabulary of the statements *)

Definition value_of {A} (x : A * gmap string unit_rec * list mqtt_msg) : A :=
  x.1.1.

(** The dict of [unit] as the code reads it: the stored one, or [{}]. *)
Definition rec_of (unit : string) (σ : gmap string unit_rec) : unit_rec :=
  default empty_rec (σ !! unit).

(** The store once the dict of [unit] exists, and once it has been
    rewritten by [f]. *)
Definition touch (unit : string) (σ : gmap string unit_rec)
  : gmap string unit_rec :=
  <[unit := rec_of unit σ]> σ.
Definition upd (unit : string) (f : unit_rec → unit_rec)
    (σ : gmap string unit_rec) : gmap string unit_rec :=
  <[unit := f (rec_of unit σ)]> σ.

(** What [_discovery] leaves of a dict: the flag is set, once. *)
Definition mark_discovered (r : unit_rec) : unit_rec :=
  if discovered r then r else set_discovered r.

(** The four estimation fields of a dict, without the announcement flag. *)
Definition estimation_fields (r : unit_rec)
  : option Z * option Qc * option Qc * option Qc :=
  (last_wh r, last_ts r, hold_until r, last_w r).

(** The mathematical maximum in which the specification is phrased. *)
Definition Qcmax (a b : Qc) : Qc := if decide (a ≤ b)%Qc then b else a.

(** Δt = max(0.5, now − last_observed_at) *)
Definition tick_dt (last_observed_at now : Qc) : Qc :=
  Qcmax half (now - last_observed_at)%Qc.

(** Δenergy × 3600 / Δt *)
Definition tick_watts (last_energy_wh : Z) (last_observed_at : Qc)
    (energy_wh_now : Z) (now : Qc) : Qc :=
  (Qc_of_Z (energy_wh_now - last_energy_wh) * Qc_of_Z 3600
   / tick_dt last_observed_at now)%Qc.

(** The hold duration policy: the factor when one is configured and
    [float] accepts it, the additive margin otherwise. *)
Definition hold_duration (B : Builtins) (cfg : Config) (dt : Qc) : Qc :=
  match py_float B (MARGIN_FACTOR cfg) with
  | Some f => Qcmax 0%Qc (dt * (1 + f))%Qc
  | None => Qcmax 0%Qc (dt + MARGIN_SECONDS_DEFAULT cfg)%Qc
  end.

(** A hold window is active at [now]: [hold_until] is set, nonzero and not
    yet passed. *)
Definition hold_active (r : unit_rec) (now : Qc) : Prop :=
  default 0%Qc (hold_until r) ≠ 0%Qc ∧ (now ≤ default 0%Qc (hold_until r))%Qc.

(** The hold window has expired at [now]: [hold_until] is nonzero and
    strictly in the past. *)
Definition hold_expired (r : unit_rec) (now : Qc) : Prop :=
  default 0%Qc (hold_until r) ≠ 0%Qc ∧ (default 0%Qc (hold_until r) < now)%Qc.

Definition is_discovery_of (unit : string) (m : mqtt_msg) : bool :=
  match m with
  | Discovery u _ _ => bool_decide (u = unit)
  | PowerState _ _ _ => false
  end.

(** How many times the announcement of [unit] occurs in an outbox. *)
Definition announcements (unit : string) (out : list mqtt_msg) : nat :=
  length (filter (λ m, is_discovery_of unit m = true) out).

(** The published wattages of an outbox, in order. *)
Definition wattages (out : list mqtt_msg) : list Qc :=
  omap (λ m, match m with PowerState _ _ w => Some w | _ => None end) out.

(** The call gets as far as [_discovery] for [unit]. *)
Definition reaches_discovery (cfg : Config) (unit : string)
    (c : call) : bool :=
  match c with
  | EnergyTick topic _ _ => bool_decide (after_slash topic = Some unit)
  | CompEstimate topic _ _ =>
      ENABLE_COMP_FALLBACK cfg && bool_decide (after_slash topic = Some unit)
  end.

(** Successive [update] calls with one energy value at the given times. *)
Fixpoint updates_at (B : Builtins) (cfg : Config) (unit : string) (wh : Z)
    (times : list Qc) : M () :=
  match times with
  | [] => mret ()
  | ts :: times =>
      _update_from_energy B cfg unit wh ts;; updates_at B cfg unit wh times
  end.

(** ** Sample data for the worked cases *)

Fixpoint digits_value (s : string) (acc : Z) : option Z :=
  match s with
  | EmptyString => Some acc
  | String c rest =>
      let n := Z.of_nat (nat_of_ascii c) in
      if ((48 <=? n) && (n <=? 57))%Z
      then digits_value rest (10 * acc + (n - 48))%Z
      else None
  end.

(** [int] on plain decimal text: an optional sign and a run of digits. *)
Definition decimal_int (s : string) : option Z :=
  match s with
  | EmptyString => None
  | String "-" (String _ _ as rest) => Z.opp <$> digits_value rest 0
  | String "+" (String _ _ as rest) => digits_value rest 0
  | String "-" EmptyString | String "+" EmptyString => None
  | _ => digits_value s 0
  end.

(** The builtins on the texts used in the worked cases: decimal integers
    for [int] and [float], and [str] of the scalars without a fraction. *)
Definition sample_builtins : Builtins := {|
  int_of_str := decimal_int;
  float_of_str := λ s, Qc_of_Z <$> decimal_int s;
  str_of := λ v,
    match v with
    | PyNone => "None"
    | PyBool b => if b then "True" else "False"
    | PyInt z => pretty z
    | PyStr s => s
    | _ => ""
    end
|}.


(** [enable_comp_fallback: true] on top of the defaults. *)
Definition fallback_config : Config := {|
  STATUS_PREFIX := "state";
  DISCOVERY_PREFIX := "homeassistant";
  MARGIN_SECONDS_DEFAULT := Qc_of_Z 300;
  MARGIN_FACTOR := PyFloat half;
  MIN_POWER_W := 0%Qc;
  ENABLE_COMP_FALLBACK := true;
  LOG_LEVEL := "info"
|}.

(** An announced unit whose last reading is 100 Wh at t = 1000. *)
Definition tracked_rec : unit_rec := {|
  last_wh := Some 100%Z;
  last_ts := Some (Qc_of_Z 1000);
  hold_until := Some 0%Qc;
  last_w := Some 0%Qc;
  discovered := true
|}.

(** The same unit holding a wattage until t = 1015. *)
Definition holding_rec : unit_rec := {|
  last_wh := Some 200%Z;
  last_ts := Some (Qc_of_Z 1000);
  hold_until := Some (Qc_of_Z 1015);
  last_w := Some (Qc_of_Z 36000);
  discovered := true
|}.

Definition tracked_store : gmap string unit_rec := {[ "ac1" := tracked_rec ]}.
Definition holding_store : gmap string unit_rec := {[ "ac1" := holding_rec ]}.
Definition two_unit_store : gmap string unit_rec :=
  {[ "ac1" := tracked_rec; "ac2" := holding_rec ]}.

(** [min_power_w: 50.04] on top of the defaults. *)
Definition fine_floor_config : Config := {|
  STATUS_PREFIX := "state";
  DISCOVERY_PREFIX := "homeassistant";
  MARGIN_SECONDS_DEFAULT := Qc_of_Z 300;
  MARGIN_FACTOR := PyFloat half;
  MIN_POWER_W := Q2Qc (5004 # 100);
  ENABLE_COMP_FALLBACK := false;
  LOG_LEVEL := "info"
|}.

(** A reading beyond the double range, as JSON can carry it. *)
Definition huge_reading : Z := 10 ^ 400.

(** [margin_factor: 10^400], an integer that [float] rejects, on top of the
    defaults. *)
Definition huge_factor_config : Config := {|
  STATUS_PREFIX := "state";
  DISCOVERY_PREFIX := "homeassistant";
  MARGIN_SECONDS_DEFAULT := Qc_of_Z 300;
  MARGIN_FACTOR := PyInt huge_reading;
  MIN_POWER_W := 0%Qc;
  ENABLE_COMP_FALLBACK := false;
  LOG_LEVEL := "info"
|}.

(** ** Vocabulary of the further properties *)

(** The text contains no ["/"]. *)
Fixpoint no_slash (s : string) : bool :=
  match s with
  | EmptyString => true
  | String c rest => negb (Ascii.eqb c "/"%char) && no_slash rest
  end.

Definition topic_of (c : call) : string :=
  match c with
  | EnergyTick topic _ _ => topic
  | CompEstimate topic _ _ => topic
  end.

(** The reading, its timestamp and the hold are present together, and a
    dict with a reading has a last wattage. *)
Definition coherent (r : unit_rec) : Prop :=
  (is_Some (last_wh r) ↔ is_Some (last_ts r))
  ∧ (is_Some (last_wh r) ↔ is_Some (hold_until r))
  ∧ (is_Some (last_wh r) → is_Some (last_w r)).

(** A hold is either cleared or ends no earlier than the last reading. *)
Definition hold_not_before_reading (r : unit_rec) : Prop :=
  match hold_until r, last_ts r with
  | Some h, Some t => h = 0%Qc ∨ (t ≤ h)%Qc
  | _, _ => True
  end.

(** The wattages published for [unit], in order, and the last of them. *)
Definition wattages_of (unit : string) (out : list mqtt_msg) : list Qc :=
  omap (λ m, match m with
             | PowerState u _ w => if decide (u = unit) then Some w else None
             | Discovery _ _ _ => None
             end) out.
Definition last_wattage_of (unit : string) (out : list mqtt_msg)
  : option Qc :=
  last (wattages_of unit out).

(** What a computation started in [σ] that leaves [σ'] and [out] has
    remembered for [u]: when it published for [u], the last wattage published
    is the one-decimal rounding of the [last_w] it leaves; when it did not,
    [last_w] is as it was. *)
Definition remembered (u : string) (σ σ' : gmap string unit_rec)
    (out : list mqtt_msg) : Prop :=
  match last_wattage_of u out with
  | Some w => ∃ v, last_w (rec_of u σ') = Some v ∧ w = py_round1 v
  | None => last_w (rec_of u σ') = last_w (rec_of u σ)
  end.

(** A payload whose compressor signal is fine and whose fan signal is
    text that [float] rejects. *)
Definition bad_fan_payload : gmap string pyval :=
  {[ "comp" := PyInt 42; "fanfreq" := PyStr "fast" ]}.

(** An announced unit without any reading yet. *)
Definition announced_store : gmap string unit_rec :=
  {[ "ac1" := set_discovered empty_rec ]}.

(** * Properties *)

(** ** Running the monad *)

Section MonadFacts.
Implicit Types (σ : gmap string unit_rec) (unit : string).
Implicit Types (f g : unit_rec → unit_rec).

Lemma bind_run {A C} (m : M A) (k : A → M C) σ :
  (m ≫= k) σ =
    match value_of (m σ) with
    | Returned a =>
        (value_of (k a (store_of (m σ))),
         store_of (k a (store_of (m σ))),
         outbox_of (m σ) ++ outbox_of (k a (store_of (m σ))))
    | Raised e => (Raised e, store_of (m σ), outbox_of (m σ))
    end.
Proof.
  unfold mbind, M_bind, value_of, store_of, outbox_of.
  destruct (m σ) as [[[a|e] σ1] o1]; simpl; [|done].
  by destruct (k a σ1) as [[c σ2] o2].
Qed.

Lemma raise_run {A} (e : pyexn) σ : raise (A := A) e σ = (Raised e, σ, []).
Proof. done. Qed.

Lemma run_eta {A} (x : outcome A * gmap string unit_rec * list mqtt_msg) :
  (value_of x, store_of x, outbox_of x) = x.
Proof. by destruct x as [[? ?] ?]. Qed.

Lemma setdefault_run unit σ :
  setdefault unit σ = (Returned (rec_of unit σ), touch unit σ, []).
Proof.
  unfold setdefault, touch, rec_of.
  destruct (σ !! unit) eqn:E; simpl; [|done]. by rewrite insert_id.
Qed.

Lemma touch_present unit σ r : σ !! unit = Some r → touch unit σ = σ.
Proof. intros E. unfold touch, rec_of. rewrite E. by apply insert_id. Qed.

Lemma rec_of_present unit σ r : σ !! unit = Some r → rec_of unit σ = r.
Proof. unfold rec_of. by intros ->. Qed.

Lemma alter_touch unit f σ : alter f unit (touch unit σ) = upd unit f σ.
Proof. unfold touch, upd. by rewrite alter_insert_eq. Qed.

Lemma alter_present unit f σ r :
  σ !! unit = Some r → alter f unit σ = upd unit f σ.
Proof.
  intros E. rewrite <- (touch_present _ _ _ E) at 1. apply alter_touch.
Qed.

Lemma alter_upd unit f g σ :
  alter g unit (upd unit f σ) = upd unit (g ∘ f) σ.
Proof. unfold upd. by rewrite alter_insert_eq. Qed.

Lemma rec_of_upd unit f σ : rec_of unit (upd unit f σ) = f (rec_of unit σ).
Proof. unfold upd at 1, rec_of at 1. by rewrite lookup_insert_eq. Qed.

Lemma rec_of_touch unit σ : rec_of unit (touch unit σ) = rec_of unit σ.
Proof. unfold touch at 1, rec_of at 1. by rewrite lookup_insert_eq. Qed.

Lemma touch_upd unit f σ : touch unit (upd unit f σ) = upd unit f σ.
Proof.
  unfold touch. rewrite rec_of_upd. unfold upd. by rewrite insert_insert_eq.
Qed.

Lemma upd_upd unit f g σ : upd unit g (upd unit f σ) = upd unit (g ∘ f) σ.
Proof.
  unfold upd at 1. rewrite rec_of_upd. unfold upd.
  by rewrite insert_insert_eq.
Qed.

Lemma upd_touch unit f σ : upd unit f (touch unit σ) = upd unit f σ.
Proof.
  unfold upd at 1. rewrite rec_of_touch. unfold touch, upd.
  by rewrite insert_insert_eq.
Qed.

Lemma lookup_upd unit f σ : upd unit f σ !! unit = Some (f (rec_of unit σ)).
Proof. apply lookup_insert_eq. Qed.

Lemma lookup_upd_ne unit u' f σ : unit ≠ u' → upd unit f σ !! u' = σ !! u'.
Proof. apply lookup_insert_ne. Qed.

Lemma rec_of_upd_ne unit u' f σ :
  unit ≠ u' → rec_of u' (upd unit f σ) = rec_of u' σ.
Proof. intros. unfold rec_of. by rewrite lookup_upd_ne. Qed.
End MonadFacts.

(** One step of symbolic execution of a handler body. *)
Ltac run_step :=
  rewrite ?bind_run, ?setdefault_run;
  unfold write, mqtt_publish, mret, M_ret;
  cbn [value_of store_of outbox_of fst snd];
  rewrite ?alter_touch, ?alter_upd, ?touch_upd, ?upd_touch, ?rec_of_upd,
    ?rec_of_touch, ?app_nil_l, ?app_nil_r.

(** ** Arithmetic of the clamps *)

Section Clamp.
Local Open Scope Qc_scope.
Implicit Types (a b w : Qc).

Lemma Qclt_irrefl a : ¬ a < a.
Proof. intros H. by apply Qclt_not_eq in H. Qed.

Lemma py_max_Qcmax a b : py_max a b = Qcmax a b.
Proof.
  unfold py_max, Qcmax. destruct (decide (a < b)) as [Hlt|Hge].
  - rewrite decide_True by by apply Qclt_le_weak. done.
  - apply Qcnot_lt_le in Hge. destruct (decide (a ≤ b)) as [Hle|]; [|done].
    by apply Qcle_antisym.
Qed.

Lemma Qcmax_ge_l a b : a ≤ Qcmax a b.
Proof.
  unfold Qcmax. destruct (decide (a ≤ b)); [assumption|]. apply Qcle_refl.
Qed.

Lemma Qcmax_ge_r a b : b ≤ Qcmax a b.
Proof.
  unfold Qcmax. destruct (decide (a ≤ b)) as [|H]; [apply Qcle_refl|].
  apply Qclt_le_weak. by apply Qcnot_le_lt.
Qed.

Lemma Qcmax_cases a b : Qcmax a b = a ∨ Qcmax a b = b.
Proof. unfold Qcmax. destruct (decide (a ≤ b)); auto. Qed.

Lemma clamp_watts_0 cfg : clamp_watts cfg 0 = 0.
Proof.
  unfold clamp_watts.
  destruct (decide (0 < 0)) as [H|_]; [by apply Qclt_irrefl in H|].
  destruct (decide (_ ∧ _)) as [[_ H]|_]; [by apply Qclt_irrefl in H|done].
Qed.

Lemma clamp_watts_nonneg cfg w : 0 ≤ clamp_watts cfg w.
Proof.
  unfold clamp_watts.
  set (w0 := if decide (w < 0) then 0 else w).
  assert (0 ≤ w0) as H0.
  { subst w0. destruct (decide (w < 0)); [apply Qcle_refl|].
    by apply Qcnot_lt_le. }
  destruct (decide (_ ∧ _)); [|exact H0].
  rewrite py_max_Qcmax. eapply Qcle_trans; [exact H0|apply Qcmax_ge_l].
Qed.

Lemma clamp_watts_floor cfg w :
  0 < MIN_POWER_W cfg → 0 < w → MIN_POWER_W cfg ≤ clamp_watts cfg w.
Proof.
  intros Hmin Hw. unfold clamp_watts.
  rewrite (decide_False (P := w < 0)) by (by apply Qcle_not_lt, Qclt_le_weak).
  rewrite decide_True.
  - rewrite py_max_Qcmax. apply Qcmax_ge_r.
  - split; [|done]. intros E. rewrite E in Hmin. by apply Qclt_irrefl in Hmin.
Qed.

(** What the clamp leaves of a strictly positive wattage. *)
Lemma clamp_watts_pos cfg w :
  0 < w →
  clamp_watts cfg w =
    if decide (MIN_POWER_W cfg = 0) then w else Qcmax w (MIN_POWER_W cfg).
Proof.
  intros Hw. unfold clamp_watts.
  rewrite (decide_False (P := w < 0)) by (by apply Qcle_not_lt, Qclt_le_weak).
  destruct (decide (MIN_POWER_W cfg = 0)) as [E|NE].
  - rewrite decide_False; [done|]. by intros [? _].
  - rewrite decide_True by done. apply py_max_Qcmax.
Qed.

(** Either nothing is left, or at least the configured floor. *)
Lemma clamp_watts_zero_or_floor cfg w :
  0 < MIN_POWER_W cfg →
  clamp_watts cfg w = 0 ∨ MIN_POWER_W cfg ≤ clamp_watts cfg w.
Proof.
  intros Hmin. destruct (decide (0 < w)) as [Hw|Hw].
  - right. by apply clamp_watts_floor.
  - left. apply Qcnot_lt_le in Hw. unfold clamp_watts.
    destruct (decide (w < 0)).
    + destruct (decide (_ ∧ _)) as [[_ H]|_];
        [by apply Qclt_irrefl in H|done].
    + destruct (decide (_ ∧ _)) as [[_ H]|_].
      * by apply Qclt_not_le in H.
      * apply Qcle_antisym; [assumption|by apply Qcnot_lt_le].
Qed.
End Clamp.

(** ** Rounding to one decimal *)

Section Rounding.
Local Open Scope Qc_scope.
Implicit Types (x y : Qc).

Lemma Qc_of_Z_this (n : Z) : this (Qc_of_Z n) = inject_Z n.
Proof. done. Qed.

Lemma Qfloor_Qc_of_Z (n : Z) : Qfloor (Qc_of_Z n) = n.
Proof. apply Qfloor_Z. Qed.

Lemma round_half_even_of_Z (n : Z) : round_half_even (Qc_of_Z n) = n.
Proof.
  unfold round_half_even. rewrite Qfloor_Qc_of_Z.
  assert (Qc_of_Z n - Qc_of_Z n = 0) as -> by apply Qcplus_opp_r.
  by rewrite decide_True.
Qed.

Lemma round_half_even_bounds y :
  (Qfloor y ≤ round_half_even y ≤ Qfloor y + 1)%Z.
Proof.
  unfold round_half_even. repeat destruct (decide _); try lia.
  destruct (Z.even (Qfloor y)); lia.
Qed.

Lemma round_half_even_mono y1 y2 :
  y1 ≤ y2 → (round_half_even y1 ≤ round_half_even y2)%Z.
Proof.
  intros Hle.
  pose proof (Qfloor_resp_le y1 y2 Hle) as Hf.
  pose proof (round_half_even_bounds y1) as H1.
  pose proof (round_half_even_bounds y2) as H2.
  destruct (decide (Qfloor y1 = Qfloor y2)) as [E|NE]; [|lia].
  unfold round_half_even. rewrite <- E.
  assert (y1 - Qc_of_Z (Qfloor y1) ≤ y2 - Qc_of_Z (Qfloor y1)) as Hfrac
    by by apply Qcplus_le_mono_r.
  destruct (decide (y1 - Qc_of_Z (Qfloor y1) < Q2Qc (1 # 2))) as [Ha|Ha].
  - repeat destruct (decide _); try lia.
    destruct (Z.even (Qfloor y1)); lia.
  - apply Qcnot_lt_le in Ha.
    rewrite (decide_False (P := y2 - Qc_of_Z (Qfloor y1) < Q2Qc (1 # 2)))
      by (apply Qcle_not_lt; by eapply Qcle_trans).
    destruct (decide (Q2Qc (1 # 2) < y1 - Qc_of_Z (Qfloor y1))) as [Hb|Hb].
    + rewrite decide_True by by eapply Qclt_le_trans. lia.
    + destruct (decide (Q2Qc (1 # 2) < y2 - Qc_of_Z (Qfloor y1)));
        destruct (Z.even (Qfloor y1)); lia.
Qed.

Lemma ten_pos : 0 < Qc_of_Z 10.
Proof. done. Qed.

Lemma py_round1_mono x1 x2 : x1 ≤ x2 → py_round1 x1 ≤ py_round1 x2.
Proof.
  intros Hle. unfold py_round1, Qcdiv.
  apply Qcmult_le_mono_nonneg_r;
    [apply Qclt_le_weak, Qcinv_pos, ten_pos|].
  apply (proj1 (Z2Qc_inj_le _ _)), round_half_even_mono.
  apply Qcmult_le_mono_nonneg_r; [apply Qclt_le_weak, ten_pos|done].
Qed.

Lemma py_round1_of_tenths (n : Z) :
  py_round1 (Qc_of_Z n / Qc_of_Z 10) = Qc_of_Z n / Qc_of_Z 10.
Proof.
  unfold py_round1 at 1.
  assert (Qc_of_Z n / Qc_of_Z 10 * Qc_of_Z 10 = Qc_of_Z n) as ->.
  { unfold Qcdiv. rewrite <- Qcmult_assoc, Qcmult_inv_l, Qcmult_1_r; [done|].
    intros E. pose proof ten_pos as H. rewrite E in H.
    by apply Qclt_irrefl in H. }
  by rewrite round_half_even_of_Z.
Qed.

Lemma py_round1_idempotent x : py_round1 (py_round1 x) = py_round1 x.
Proof. unfold py_round1 at 2 3. apply py_round1_of_tenths. Qed.

Lemma py_round1_0 : py_round1 0 = 0.
Proof. apply Qc_is_canon. vm_compute. reflexivity. Qed.

Lemma py_round1_nonneg x : 0 ≤ x → 0 ≤ py_round1 x.
Proof. intros H. rewrite <- py_round1_0. by apply py_round1_mono. Qed.
End Rounding.

(** ** Closed forms of the publisher and of the discovery *)

Section Runs.
Context (B : Builtins) (cfg : Config).
Implicit Types (σ : gmap string unit_rec) (unit : string).

Lemma publish_power_run unit w σ :
  _publish_power cfg unit w σ =
    (Returned (), upd unit (set_last_w (clamp_watts cfg w)) σ,
     [PowerState unit (power_topic unit) (py_round1 (clamp_watts cfg w))]).
Proof. unfold _publish_power. by repeat run_step. Qed.

Lemma discovery_run unit dev_id url σ :
  ∃ topic payload,
    _discovery cfg unit dev_id url σ =
      if discovered (rec_of unit σ) then (Returned (), touch unit σ, [])
      else (Returned (), upd unit set_discovered σ, [Discovery unit topic payload]).
Proof.
  unfold _discovery. do 2 eexists. run_step.
  destruct (discovered (rec_of unit σ)); by repeat run_step.
Qed.

(** The reinitialisation shared by the first observation and the counter
    reset. *)
Lemma reinit_run unit wh ts σ :
  (write unit (set_last_wh wh);; write unit (set_last_ts ts);;
   write unit (set_hold_until 0%Qc);; _publish_power cfg unit 0%Qc)
    (touch unit σ) =
  (Returned (), upd unit (λ r, {| last_wh := Some wh; last_ts := Some ts;
                         hold_until := Some 0%Qc; last_w := Some 0%Qc;
                         discovered := discovered r |}) σ,
   [PowerState unit (power_topic unit) 0%Qc]).
Proof.
  repeat run_step. rewrite publish_power_run, clamp_watts_0, py_round1_0.
  repeat run_step. by rewrite upd_upd.
Qed.
End Runs.

(** ** The estimator state machine *)

(** C5. An update on a unit without a stored reading, or with a reading
    above the new one, stores the new reading and timestamp as the baseline,
    clears the hold and publishes exactly 0 W; both cases leave the same
    record. *)
Theorem first_or_lower_reading_reinitialises
    (B : Builtins) (cfg : Config) (unit : string) (wh : Z) (ts : Qc)
    (σ : gmap string unit_rec) :
  last_wh (rec_of unit σ) = None ∨ last_ts (rec_of unit σ) = None
    ∨ (∃ l, last_wh (rec_of unit σ) = Some l ∧ (wh < l)%Z) →
  outbox_of (_update_from_energy B cfg unit wh ts σ)
    = [PowerState unit (power_topic unit) 0%Qc]
  ∧ store_of (_update_from_energy B cfg unit wh ts σ) !! unit
    = Some {| last_wh := Some wh; last_ts := Some ts;
              hold_until := Some 0%Qc; last_w := Some 0%Qc;
              discovered := discovered (rec_of unit σ) |}.
Proof.
  intros H.
  assert (_update_from_energy B cfg unit wh ts σ =
    (Returned (), upd unit (λ r, {| last_wh := Some wh; last_ts := Some ts;
                           hold_until := Some 0%Qc; last_w := Some 0%Qc;
                           discovered := discovered r |}) σ,
     [PowerState unit (power_topic unit) 0%Qc])) as ->.
  { unfold _update_from_energy. rewrite bind_run, setdefault_run.
    cbn [value_of store_of outbox_of fst snd].
    destruct (last_wh (rec_of unit σ)) as [l|] eqn:Hl;
      [destruct (last_ts (rec_of unit σ)) as [t|] eqn:Ht|].
    - destruct H as [?|[?|(l' & [= <-] & Hlt)]]; [done..|].
      rewrite decide_True by done. by rewrite reinit_run.
    - by rewrite reinit_run.
    - by rewrite reinit_run. }
  split; [done|]. unfold store_of; simpl. by rewrite lookup_upd.
Qed.

Lemma first_or_lower_reading_reinitialises_witness :
  (∃ l, last_wh (rec_of "ac1" tracked_store) = Some l ∧ (50 < l)%Z)
  ∧ outbox_of (_update_from_energy sample_builtins default_config "ac1" 50
                 (Qc_of_Z 2000) tracked_store)
    = [PowerState "ac1" (power_topic "ac1") 0%Qc]
  ∧ store_of (_update_from_energy sample_builtins default_config "ac1" 50
                (Qc_of_Z 2000) tracked_store) !! "ac1"
    = Some {| last_wh := Some 50%Z; last_ts := Some (Qc_of_Z 2000);
              hold_until := Some 0%Qc; last_w := Some 0%Qc;
              discovered := true |}.
Proof.
  assert (∃ l, last_wh (rec_of "ac1" tracked_store) = Some l ∧ (50 < l)%Z)
    as H by (exists 100%Z; split; [reflexivity|lia]).
  split; [exact H|].
  apply (first_or_lower_reading_reinitialises sample_builtins default_config
           "ac1" 50 (Qc_of_Z 2000) tracked_store).
  right; right; exact H.
Defined.

(** *** Closed forms of the update, branch by branch *)

Section UpdateRuns.
Context (B : Builtins) (cfg : Config).
Implicit Types (σ : gmap string unit_rec) (unit : string) (r : unit_rec).
Local Open Scope Qc_scope.

Lemma update_run_present unit wh ts σ r :
  σ !! unit = Some r →
  _update_from_energy B cfg unit wh ts σ =
    (match last_wh r, last_ts r with
     | None, _ | _, None =>
         write unit (set_last_wh wh);; write unit (set_last_ts ts);;
         write unit (set_hold_until 0);; _publish_power cfg unit 0
     | Some last_wh, Some last_ts =>
         if decide (wh < last_wh)%Z then
           write unit (set_last_wh wh);; write unit (set_last_ts ts);;
           write unit (set_hold_until 0);; _publish_power cfg unit 0
         else if decide (wh = last_wh) then
           if decide (default 0 (hold_until r) ≠ 0
                      ∧ default 0 (hold_until r) < ts)
           then _publish_power cfg unit 0;; write unit (set_hold_until 0)
           else mret ()
         else
           match float_of_int (wh - last_wh) with
           | None => raise OverflowError
           | Some dwh =>
               write unit (set_last_wh wh);; write unit (set_last_ts ts);;
               write unit
                 (set_hold_until
                    (ts + _compute_hold_seconds B cfg
                            (py_max half (ts - last_ts))));;
               _publish_power cfg unit
                 (dwh * Qc_of_Z 3600 / py_max half (ts - last_ts))
           end
     end) σ.
Proof.
  intros Hr. unfold _update_from_energy. rewrite bind_run, setdefault_run.
  rewrite (rec_of_present _ _ _ Hr), (touch_present _ _ _ Hr).
  cbn [value_of store_of outbox_of fst snd]. rewrite app_nil_l, run_eta.
  by destruct (last_wh r) as [l|], (last_ts r).
Qed.

Lemma update_same_energy_kept unit wh t ts σ r :
  σ !! unit = Some r → last_wh r = Some wh → last_ts r = Some t →
  ¬ hold_expired r ts →
  _update_from_energy B cfg unit wh ts σ = (Returned (), σ, []).
Proof.
  intros Hr Hl Ht Hne. rewrite (update_run_present _ _ _ _ _ Hr), Hl, Ht.
  rewrite decide_False by lia. rewrite decide_True by done.
  by rewrite decide_False by exact Hne.
Qed.

Lemma update_same_energy_expired unit wh t ts σ r :
  σ !! unit = Some r → last_wh r = Some wh → last_ts r = Some t →
  hold_expired r ts →
  _update_from_energy B cfg unit wh ts σ =
    (Returned (), <[unit := {| last_wh := Some wh; last_ts := Some t;
                      hold_until := Some 0; last_w := Some 0;
                      discovered := discovered r |}]> σ,
     [PowerState unit (power_topic unit) 0]).
Proof.
  intros Hr Hl Ht He. rewrite (update_run_present _ _ _ _ _ Hr), Hl, Ht.
  rewrite decide_False by lia. rewrite decide_True by done.
  rewrite decide_True by exact He.
  run_step. rewrite publish_power_run, clamp_watts_0, py_round1_0.
  repeat run_step.
  unfold upd. rewrite (rec_of_present _ _ _ Hr). cbn.
  unfold set_hold_until, set_last_w; cbn. by rewrite Hl, Ht.
Qed.

Lemma compute_hold_seconds_duration dt :
  _compute_hold_seconds B cfg dt = hold_duration B cfg dt.
Proof.
  unfold _compute_hold_seconds, hold_duration.
  destruct (MARGIN_FACTOR cfg); cbn [py_float];
    repeat match goal with |- context [match ?o with _ => _ end] =>
      destruct o end;
    by rewrite py_max_Qcmax.
Qed.

Lemma float_of_int_in_range (n : Z) :
  (0 ≤ n < float_overflow)%Z → float_of_int n = Some (Qc_of_Z n).
Proof. intros H. unfold float_of_int. rewrite decide_True; [done|lia]. Qed.

Lemma float_of_int_overflow (n : Z) :
  (float_overflow ≤ n)%Z → float_of_int n = None.
Proof. intros H. unfold float_of_int. rewrite decide_False; [done|lia]. Qed.

(** A difference that [float] rejects: the raise comes before any write. *)
Lemma update_overflow_run unit wh l t ts σ r :
  σ !! unit = Some r → last_wh r = Some l → last_ts r = Some t → (l < wh)%Z →
  (float_overflow ≤ wh - l)%Z →
  _update_from_energy B cfg unit wh ts σ = (Raised OverflowError, σ, []).
Proof.
  intros Hr Hl Ht Hlt Hov. rewrite (update_run_present _ _ _ _ _ Hr), Hl, Ht.
  rewrite decide_False by lia. rewrite decide_False by lia.
  by rewrite float_of_int_overflow.
Qed.

Lemma update_tick_run unit wh l t ts σ r :
  σ !! unit = Some r → last_wh r = Some l → last_ts r = Some t → (l < wh)%Z →
  (wh - l < float_overflow)%Z →
  _update_from_energy B cfg unit wh ts σ =
    (Returned (), <[unit := {| last_wh := Some wh; last_ts := Some ts;
                      hold_until :=
                        Some (ts + hold_duration B cfg (tick_dt t ts));
                      last_w := Some (clamp_watts cfg (tick_watts l t wh ts));
                      discovered := discovered r |}]> σ,
     [PowerState unit (power_topic unit)
        (py_round1 (clamp_watts cfg (tick_watts l t wh ts)))]).
Proof.
  intros Hr Hl Ht Hlt Hrange.
  rewrite (update_run_present _ _ _ _ _ Hr), Hl, Ht.
  rewrite decide_False by lia. rewrite decide_False by lia.
  rewrite float_of_int_in_range by lia.
  repeat run_step. rewrite publish_power_run. repeat run_step.
  rewrite compute_hold_seconds_duration, py_max_Qcmax.
  rewrite (alter_present _ _ _ _ Hr). repeat run_step. rewrite upd_upd.
  unfold upd. by rewrite (rec_of_present _ _ _ Hr).
Qed.


End UpdateRuns.

(** Closing goals between concrete rationals. *)
Ltac qc_eq := apply Qc_is_canon; vm_compute; reflexivity.
Ltac qc_lt := vm_compute; reflexivity.
Ltac qc_le := vm_compute; discriminate.
Ltac qc_ne :=
  let E := fresh in
  intros E; apply (f_equal this) in E; vm_compute in E; discriminate E.


(** C4. An update whose energy equals the stored reading publishes exactly
    0 W and clears the hold when a nonzero [hold_until] lies strictly in the
    past; otherwise it publishes nothing and leaves the store as it is, and
    so does any run of such updates. *)
Theorem unchanged_reading_expires_or_holds
    (B : Builtins) (cfg : Config) (unit : string) (wh : Z) (t ts : Qc)
    (σ : gmap string unit_rec) (r : unit_rec) :
  σ !! unit = Some r → last_wh r = Some wh → last_ts r = Some t →
  (hold_expired r ts →
     outbox_of (_update_from_energy B cfg unit wh ts σ)
       = [PowerState unit (power_topic unit) 0%Qc]
     ∧ store_of (_update_from_energy B cfg unit wh ts σ) !! unit
       = Some {| last_wh := Some wh; last_ts := Some t;
                 hold_until := Some 0%Qc; last_w := Some 0%Qc;
                 discovered := discovered r |})
  ∧ (¬ hold_expired r ts →
       _update_from_energy B cfg unit wh ts σ = (Returned (), σ, []))
  ∧ (∀ times : list Qc,
       Forall (λ ts', ¬ hold_expired r ts') times →
       updates_at B cfg unit wh times σ = (Returned (), σ, [])).
Proof.
  intros Hr Hl Ht. split; [|split].
  - intros He. rewrite (update_same_energy_expired B cfg _ _ _ _ _ _ Hr Hl Ht He).
    split; [done|]. unfold store_of; simpl. apply lookup_insert_eq.
  - by apply update_same_energy_kept with t.
  - induction 1 as [|ts' times Hts' _ IH]; [done|].
    cbn [updates_at]. rewrite bind_run.
    rewrite (update_same_energy_kept B cfg _ _ _ _ _ _ Hr Hl Ht Hts').
    cbn [value_of store_of outbox_of fst snd]. by rewrite IH.
Qed.

Lemma unchanged_reading_expires_or_holds_witness :
  outbox_of (_update_from_energy sample_builtins default_config "ac1" 200
               (Qc_of_Z 1016) holding_store)
    = [PowerState "ac1" (power_topic "ac1") 0%Qc]
  ∧ _update_from_energy sample_builtins default_config "ac1" 200
      (Qc_of_Z 1014) holding_store = (Returned (), holding_store, []).
Proof.
  split.
  - apply (unchanged_reading_expires_or_holds sample_builtins default_config
             "ac1" 200 (Qc_of_Z 1000) (Qc_of_Z 1016) holding_store holding_rec);
      [reflexivity..|].
    split; [qc_ne|qc_lt].
  - apply (unchanged_reading_expires_or_holds sample_builtins default_config
             "ac1" 200 (Qc_of_Z 1000) (Qc_of_Z 1014) holding_store holding_rec);
      [reflexivity..|].
    intros [_ Hlt]. revert Hlt. apply Qcle_not_lt. qc_le.
Defined.




(** C3.  On an energy increase whose difference [float] accepts, the stored
    [hold_until] is [now] plus the hold duration: max(0, Δt × (1 + f)) when
    [float] accepts the configured margin factor, max(0, Δt +
    margin_seconds) otherwise; the duration is never negative.  On an
    increase whose difference is beyond the double range the update raises
    [OverflowError] before any write: no hold is set, nothing is
    published. *)
Theorem tick_sets_hold_until
    (B : Builtins) (cfg : Config) (unit : string) (wh l : Z) (t ts : Qc)
    (σ : gmap string unit_rec) (r : unit_rec) :
  σ !! unit = Some r → last_wh r = Some l → last_ts r = Some t → (l < wh)%Z →
  ((wh - l < float_overflow)%Z →
     hold_until <$> store_of (_update_from_energy B cfg unit wh ts σ) !! unit
       = Some (Some (ts + hold_duration B cfg (tick_dt t ts))%Qc)
     ∧ hold_duration B cfg (tick_dt t ts)
       = match py_float B (MARGIN_FACTOR cfg) with
         | Some f => Qcmax 0%Qc (tick_dt t ts * (1 + f))%Qc
         | None => Qcmax 0%Qc (tick_dt t ts + MARGIN_SECONDS_DEFAULT cfg)%Qc
         end
     ∧ (0 ≤ hold_duration B cfg (tick_dt t ts))%Qc)
  ∧ ((float_overflow ≤ wh - l)%Z →
     _update_from_energy B cfg unit wh ts σ = (Raised OverflowError, σ, [])).
Proof.
  intros Hr Hl Ht Hlt. split.
  - intros Hrange.
    rewrite (update_tick_run B cfg _ _ _ _ _ _ _ Hr Hl Ht Hlt Hrange).
    split; [|split].
    + unfold store_of; simpl. by rewrite lookup_insert_eq.
    + done.
    + unfold hold_duration. destruct (py_float B (MARGIN_FACTOR cfg));
        apply Qcmax_ge_l.
  - intros Hov. by apply update_overflow_run with l t r.
Qed.

(** Δt = 10 with margin factor 0.5: the hold lasts 15 s from the tick.  A
    reading of 10^400 Wh after 100 Wh: the update raises and the dict keeps
    its hold. *)
Lemma tick_sets_hold_until_witness :
  hold_until <$> store_of (_update_from_energy sample_builtins default_config
                             "ac1" 200 (Qc_of_Z 1010) tracked_store) !! "ac1"
    = Some (Some (Qc_of_Z 1010 + Qc_of_Z 15)%Qc)
  ∧ _update_from_energy sample_builtins default_config "ac1" huge_reading
      (Qc_of_Z 1010) tracked_store
    = (Raised OverflowError, tracked_store, []).
Proof.
  split.
  - destruct (tick_sets_hold_until sample_builtins default_config "ac1" 200
                100 (Qc_of_Z 1000) (Qc_of_Z 1010) tracked_store tracked_rec)
      as [H _]; [reflexivity|reflexivity|reflexivity|lia|].
    destruct H as (H & _ & _); [reflexivity|]. rewrite H.
    assert (hold_duration sample_builtins default_config
              (tick_dt (Qc_of_Z 1000) (Qc_of_Z 1010)) = Qc_of_Z 15)
      as -> by qc_eq.
    reflexivity.
  - destruct (tick_sets_hold_until sample_builtins default_config "ac1"
                huge_reading 100 (Qc_of_Z 1000) (Qc_of_Z 1010) tracked_store
                tracked_rec)
      as [_ H]; [reflexivity|reflexivity|reflexivity|reflexivity|].
    apply H. vm_compute. discriminate.
Defined.

(** ** Closed forms of the handlers *)

Section HandlerRuns.
Context (B : Builtins) (cfg : Config).
Implicit Types (σ : gmap string unit_rec) (unit : string) (r : unit_rec).
Local Open Scope Qc_scope.

Lemma get_or_empty_run unit σ :
  get_or_empty unit σ = (Returned (rec_of unit σ), σ, []).
Proof. done. Qed.

Lemma discovered_present unit σ :
  discovered (rec_of unit σ) = true → σ !! unit = Some (rec_of unit σ).
Proof. unfold rec_of. by destruct (σ !! unit). Qed.

Lemma discovery_closed unit dev_id url σ :
  ∃ topic payload,
    _discovery cfg unit dev_id url σ =
      (Returned (), upd unit mark_discovered σ,
       if discovered (rec_of unit σ) then []
       else [Discovery unit topic payload]).
Proof.
  destruct (discovery_run cfg unit dev_id url σ) as (topic & payload & ->).
  exists topic, payload. unfold mark_discovered, upd, touch.
  by destruct (discovered (rec_of unit σ)).
Qed.

Lemma upd_mark_discovered_id unit σ :
  discovered (rec_of unit σ) = true → upd unit mark_discovered σ = σ.
Proof.
  intros Hd. unfold upd, mark_discovered. rewrite Hd.
  apply insert_id. by apply discovered_present.
Qed.

Lemma energy_tick_no_unit topic payload_obj clock σ :
  after_slash topic = None →
  faikin_energy_tick B cfg topic payload_obj clock σ = (Returned (), σ, []).
Proof. unfold faikin_energy_tick. by intros ->. Qed.

Lemma energy_tick_closed topic payload_obj clock σ unit :
  after_slash topic = Some unit →
  ∃ dtopic dpayload,
    faikin_energy_tick B cfg topic payload_obj clock σ =
      match payload_obj !! "Wh" ≫= py_int B with
      | None =>
          (Returned (), upd unit mark_discovered σ,
           if discovered (rec_of unit σ) then []
           else [Discovery unit dtopic dpayload])
      | Some wh =>
          (value_of (_update_from_energy B cfg unit wh clock
                       (upd unit mark_discovered σ)),
           store_of (_update_from_energy B cfg unit wh clock
                       (upd unit mark_discovered σ)),
           (if discovered (rec_of unit σ) then []
            else [Discovery unit dtopic dpayload])
           ++ outbox_of (_update_from_energy B cfg unit wh clock
                           (upd unit mark_discovered σ)))
      end.
Proof.
  intros Hu. unfold faikin_energy_tick. rewrite Hu.
  destruct (discovery_closed unit (device_id B unit payload_obj)
              (Some (local_url unit)) σ) as (dtopic & dpayload & Hd).
  exists dtopic, dpayload. rewrite bind_run, Hd.
  cbn [value_of store_of outbox_of fst snd].
  destruct (payload_obj !! "Wh" ≫= py_int B) as [wh|]; [done|].
  unfold mret, M_ret. cbn. by rewrite app_nil_r.
Qed.

Lemma comp_estimate_disabled topic payload_obj clock σ :
  ENABLE_COMP_FALLBACK cfg = false →
  faikin_comp_estimate B cfg topic payload_obj clock σ = (Returned (), σ, []).
Proof. unfold faikin_comp_estimate. by intros ->. Qed.

Lemma comp_estimate_no_unit topic payload_obj clock σ :
  after_slash topic = None →
  faikin_comp_estimate B cfg topic payload_obj clock σ = (Returned (), σ, []).
Proof.
  unfold faikin_comp_estimate. intros ->.
  by destruct (negb (ENABLE_COMP_FALLBACK cfg)).
Qed.

Lemma comp_estimate_closed topic payload_obj clock σ unit :
  ENABLE_COMP_FALLBACK cfg = true → after_slash topic = Some unit →
  ∃ dtopic dpayload,
    faikin_comp_estimate B cfg topic payload_obj clock σ =
      let out1 := if discovered (rec_of unit σ) then []
                  else [Discovery unit dtopic dpayload] in
      let est := clamp_watts cfg
                   (estimate_power_from_comp
                      (Some (comp_fan B payload_obj).1)
                      (comp_fan B payload_obj).2) in
      if decide (default 0 (hold_until (rec_of unit σ)) ≠ 0
                 ∧ clock ≤ default 0 (hold_until (rec_of unit σ)))
      then (Returned (), upd unit mark_discovered σ, out1)
      else (Returned (), upd unit (set_last_w est ∘ mark_discovered) σ,
            out1 ++ [PowerState unit (power_topic unit) (py_round1 est)]).
Proof.
  intros He Hu. unfold faikin_comp_estimate. rewrite He, Hu. cbn [negb].
  destruct (discovery_closed unit (device_id B unit payload_obj)
              (Some (local_url unit)) σ) as (dtopic & dpayload & Hd).
  exists dtopic, dpayload. rewrite bind_run, Hd.
  cbn [value_of store_of outbox_of fst snd].
  rewrite bind_run, get_or_empty_run.
  cbn [value_of store_of outbox_of fst snd]. rewrite rec_of_upd.
  assert (hold_until (mark_discovered (rec_of unit σ))
          = hold_until (rec_of unit σ)) as ->.
  { unfold mark_discovered. by destruct (discovered (rec_of unit σ)). }
  destruct (decide _).
  - unfold mret, M_ret. cbn. by rewrite app_nil_r.
  - destruct (comp_fan B payload_obj) as [comp fan]. cbn [fst snd].
    rewrite publish_power_run. cbn. by rewrite upd_upd.
Qed.
End HandlerRuns.

(** ** Shape of every effect: one dict rewritten, rounded wattages out *)

Section Effects.
Context (B : Builtins) (cfg : Config).
Implicit Types (σ : gmap string unit_rec) (unit : string) (r : unit_rec).
Local Open Scope Qc_scope.

Lemma update_effect unit wh ts σ :
  ∃ (f : unit_rec → unit_rec) (ws : list Qc) (o : outcome ()),
    _update_from_energy B cfg unit wh ts σ =
      (o, upd unit f σ,
       (λ w, PowerState unit (power_topic unit)
               (py_round1 (clamp_watts cfg w))) <$> ws)
    ∧ ∀ r, discovered (f r) = discovered r.
Proof.
  unfold _update_from_energy. rewrite bind_run, setdefault_run.
  cbn [value_of store_of outbox_of fst snd].
  destruct (last_wh (rec_of unit σ)) as [l|];
    [destruct (last_ts (rec_of unit σ)) as [t|];
     [destruct (decide (wh < l)%Z);
      [|destruct (decide (wh = l));
        [destruct (decide (_ ∧ _))
        |destruct (float_of_int (wh - l)) as [dwh|]]]|]|].
  - exists (set_last_w (clamp_watts cfg 0) ∘ set_hold_until 0
            ∘ set_last_ts ts ∘ set_last_wh wh), [0], (Returned ()).
    split; [|done]. repeat run_step. rewrite publish_power_run.
    repeat run_step. by rewrite upd_upd.
  - exists (set_hold_until 0 ∘ set_last_w (clamp_watts cfg 0)), [0],
      (Returned ()).
    split; [|done]. repeat run_step. rewrite publish_power_run.
    by repeat run_step.
  - exists id, [], (Returned ()). split; [|done]. by repeat run_step.
  - eexists (set_last_w (clamp_watts cfg _) ∘ set_hold_until _
             ∘ set_last_ts ts ∘ set_last_wh wh), [_], (Returned ()).
    split; [|done]. repeat run_step. rewrite publish_power_run.
    repeat run_step. by rewrite upd_upd.
  - exists id, [], (Raised OverflowError). split; [|done].
    by repeat run_step.
  - exists (set_last_w (clamp_watts cfg 0) ∘ set_hold_until 0
            ∘ set_last_ts ts ∘ set_last_wh wh), [0], (Returned ()).
    split; [|done]. repeat run_step. rewrite publish_power_run.
    repeat run_step. by rewrite upd_upd.
  - exists (set_last_w (clamp_watts cfg 0) ∘ set_hold_until 0
            ∘ set_last_ts ts ∘ set_last_wh wh), [0], (Returned ()).
    split; [|done]. repeat run_step. rewrite publish_power_run.
    repeat run_step. by rewrite upd_upd.
Qed.

(** Every handler invocation rewrites at most the dict of the unit named by
    its topic, keeps an existing announcement flag, and emits the
    announcement (if due) followed by clamped and rounded wattages. *)
Lemma handle_effect (c : call) σ :
  (handle B cfg c σ = (Returned (), σ, []) ∧ ∀ u, reaches_discovery cfg u c = false)
  ∨ ∃ unit (f : unit_rec → unit_rec) (ds : list mqtt_msg) (ws : list Qc)
      (o : outcome ()),
      handle B cfg c σ =
        (o, upd unit f σ,
         ds ++ ((λ w, PowerState unit (power_topic unit)
                        (py_round1 (clamp_watts cfg w))) <$> ws))
      ∧ reaches_discovery cfg unit c = true
      ∧ (∀ u, u ≠ unit → reaches_discovery cfg u c = false)
      ∧ discovered (f (rec_of unit σ)) = true
      ∧ ((discovered (rec_of unit σ) = true ∧ ds = [])
         ∨ (discovered (rec_of unit σ) = false
            ∧ ∃ dtopic dpayload, ds = [Discovery unit dtopic dpayload])).
Proof.
  assert (∀ unit, discovered (mark_discovered (rec_of unit σ)) = true) as Hm.
  { intros unit. unfold mark_discovered.
    by destruct (discovered (rec_of unit σ)) eqn:E. }
  assert (∀ unit dtopic dpayload,
    (discovered (rec_of unit σ) = true
     ∧ (if discovered (rec_of unit σ) then []
        else [Discovery unit dtopic dpayload]) = [])
    ∨ (discovered (rec_of unit σ) = false
       ∧ ∃ dt dp, (if discovered (rec_of unit σ) then []
                   else [Discovery unit dtopic dpayload])
                  = [Discovery unit dt dp])) as Hds.
  { intros unit dt dp. destruct (discovered (rec_of unit σ)); eauto. }
  destruct c as [topic payload_obj clock|topic payload_obj clock];
    cbn [handle reaches_discovery].
  - destruct (after_slash topic) as [unit|] eqn:Hu;
      [|left; split; [by apply energy_tick_no_unit|intros u; cbn; rewrite ?He, ?Hu; done]].
    right. exists unit.
    destruct (energy_tick_closed B cfg topic payload_obj clock σ unit Hu)
      as (dt & dp & ->).
    destruct (payload_obj !! "Wh" ≫= py_int B) as [wh|].
    + destruct (update_effect unit wh clock (upd unit mark_discovered σ))
        as (f & ws & o & -> & Hf).
      eexists (f ∘ mark_discovered), _, ws, o.
      cbn [value_of store_of outbox_of fst snd]. rewrite upd_upd.
      split; [done|]. split; [by apply bool_decide_eq_true|].
      split; [intros u Hne; apply bool_decide_eq_false; congruence|].
      split; [cbn; by rewrite Hf|]. apply Hds.
    + eexists mark_discovered, _, [], _. rewrite app_nil_r.
      split; [done|]. split; [by apply bool_decide_eq_true|].
      split; [intros u Hne; apply bool_decide_eq_false; congruence|].
      split; [done|]. apply Hds.
  - destruct (ENABLE_COMP_FALLBACK cfg) eqn:He;
      [|left; split; [by apply comp_estimate_disabled|intros u; cbn; rewrite ?He, ?Hu; done]].
    destruct (after_slash topic) as [unit|] eqn:Hu;
      [|left; split; [by apply comp_estimate_no_unit|intros u; cbn; rewrite ?He, ?Hu; done]].
    right. exists unit.
    destruct (comp_estimate_closed B cfg topic payload_obj clock σ unit He Hu)
      as (dt & dp & ->). cbn zeta.
    destruct (decide (_ ∧ _)).
    + eexists mark_discovered, _, [], _. rewrite app_nil_r.
      split; [done|]. split; [by apply bool_decide_eq_true|].
      split; [intros u Hne; apply bool_decide_eq_false; congruence|].
      split; [done|]. apply Hds.
    + eexists (set_last_w _ ∘ mark_discovered), _, [_], _.
      split; [done|]. split; [by apply bool_decide_eq_true|].
      split; [intros u Hne; apply bool_decide_eq_false; congruence|].
      split; [cbn; apply Hm|]. apply Hds.
Qed.
End Effects.

(** ** Reading an outbox *)

Section Outbox.
Implicit Types (out : list mqtt_msg) (unit u : string).

Lemma wattages_app out1 out2 :
  wattages (out1 ++ out2) = wattages out1 ++ wattages out2.
Proof. apply omap_app. Qed.

Lemma wattages_power unit (g : Qc → Qc) (ws : list Qc) :
  wattages ((λ w, PowerState unit (power_topic unit) (g w)) <$> ws) = g <$> ws.
Proof. induction ws as [|w ws IH]; [done|]. cbn. f_equal. exact IH. Qed.

Lemma announcements_app u out1 out2 :
  announcements u (out1 ++ out2) = announcements u out1 + announcements u out2.
Proof. unfold announcements. by rewrite filter_app, length_app. Qed.

Lemma announcements_power u unit (g : Qc → Qc) (ws : list Qc) :
  announcements u ((λ w, PowerState unit (power_topic unit) (g w)) <$> ws) = 0.
Proof.
  induction ws as [|w ws IH]; [done|]. cbn [fmap list_fmap].
  unfold announcements in *. rewrite filter_cons_False; [exact IH|]. cbn. done.
Qed.

Lemma announcements_discovery u unit topic payload :
  announcements u [Discovery unit topic payload]
    = if decide (unit = u) then 1 else 0.
Proof.
  unfold announcements. destruct (decide (unit = u)) as [Hu|Hu].
  - rewrite filter_cons_True; [done|]. cbn. by apply bool_decide_eq_true.
  - rewrite filter_cons_False; [done|]. cbn. intros H.
    by apply bool_decide_eq_true in H.
Qed.
End Outbox.

(** ** The fallback path and the hold window *)

(** C7. While the hold window of a unit is active, an auxiliary-signal
    message for it publishes no wattage and leaves the estimation fields of
    its dict alone, whatever the payload and whether or not the fallback is
    enabled. *)
Theorem fallback_silent_within_hold
    (B : Builtins) (cfg : Config) (topic unit : string)
    (payload_obj : gmap string pyval) (clock : Qc)
    (σ : gmap string unit_rec) :
  after_slash topic = Some unit → hold_active (rec_of unit σ) clock →
  wattages (outbox_of (faikin_comp_estimate B cfg topic payload_obj clock σ))
    = []
  ∧ estimation_fields
      (rec_of unit
         (store_of (faikin_comp_estimate B cfg topic payload_obj clock σ)))
    = estimation_fields (rec_of unit σ).
Proof.
  intros Hu Hh. destruct (ENABLE_COMP_FALLBACK cfg) eqn:He.
  - destruct (comp_estimate_closed B cfg topic payload_obj clock σ unit He Hu)
      as (dt & dp & ->). cbn zeta.
    rewrite decide_True by exact Hh. cbn [outbox_of store_of fst snd].
    rewrite rec_of_upd. unfold mark_discovered.
    by destruct (discovered (rec_of unit σ)).
  - by rewrite comp_estimate_disabled.
Qed.

Lemma fallback_silent_within_hold_witness :
  wattages (outbox_of (faikin_comp_estimate sample_builtins fallback_config
                         "state/ac1" {[ "comp" := PyInt 42 ]} (Qc_of_Z 1010)
                         holding_store)) = []
  ∧ estimation_fields
      (rec_of "ac1"
         (store_of (faikin_comp_estimate sample_builtins fallback_config
                      "state/ac1" {[ "comp" := PyInt 42 ]} (Qc_of_Z 1010)
                      holding_store)))
    = estimation_fields (rec_of "ac1" holding_store).
Proof.
  apply (fallback_silent_within_hold sample_builtins fallback_config
           "state/ac1" "ac1" {[ "comp" := PyInt 42 ]} (Qc_of_Z 1010)
           holding_store); [reflexivity|].
  split; [qc_ne|qc_le].
Defined.

(** C10. At the instant [now = hold_until] of a nonzero hold, an update
    with unchanged energy publishes nothing and the fallback path publishes
    no wattage: the window includes its right end.  Strictly after it, the
    update publishes the expiry to 0 W and an enabled fallback publishes its
    estimate. *)
Theorem hold_window_closed_on_the_right
    (B : Builtins) (cfg : Config) (topic unit : string)
    (payload_obj : gmap string pyval) (wh : Z) (t h : Qc)
    (σ : gmap string unit_rec) (r : unit_rec) :
  σ !! unit = Some r → last_wh r = Some wh → last_ts r = Some t →
  hold_until r = Some h → h ≠ 0%Qc → after_slash topic = Some unit →
  _update_from_energy B cfg unit wh h σ = (Returned (), σ, [])
  ∧ wattages (outbox_of (faikin_comp_estimate B cfg topic payload_obj h σ))
    = []
  ∧ ∀ now : Qc, (h < now)%Qc →
      wattages (outbox_of (_update_from_energy B cfg unit wh now σ)) = [0%Qc]
      ∧ (ENABLE_COMP_FALLBACK cfg = true →
         ∃ w, wattages
                (outbox_of (faikin_comp_estimate B cfg topic payload_obj now σ))
              = [w]).
Proof.
  intros Hr Hl Ht Hh Hne Hu. split; [|split].
  - apply update_same_energy_kept with t r; [done..|].
    unfold hold_expired. rewrite Hh. cbn. intros [_ Hlt].
    by apply Qclt_irrefl in Hlt.
  - destruct (ENABLE_COMP_FALLBACK cfg) eqn:He;
      [|by rewrite comp_estimate_disabled].
    destruct (comp_estimate_closed B cfg topic payload_obj h σ unit He Hu)
      as (dt & dp & ->). cbn zeta.
    rewrite (rec_of_present _ _ _ Hr), Hh. cbn [default].
    rewrite decide_True by (split; [done|apply Qcle_refl]).
    cbn. by destruct (discovered r).
  - intros now Hlt. split.
    + rewrite (update_same_energy_expired B cfg _ _ t _ _ r); [done..|].
      unfold hold_expired. by rewrite Hh.
    + intros He.
      destruct (comp_estimate_closed B cfg topic payload_obj now σ unit He Hu)
        as (dt & dp & ->). cbn zeta.
      rewrite (rec_of_present _ _ _ Hr), Hh. cbn [default].
      rewrite decide_False by (intros [_ Hle]; by apply Qcle_not_lt in Hle).
      eexists. cbn [outbox_of snd]. rewrite wattages_app.
      by destruct (discovered r).
Qed.

Lemma hold_window_closed_on_the_right_witness :
  _update_from_energy sample_builtins fallback_config "ac1" 200
    (Qc_of_Z 1015) holding_store = (Returned (), holding_store, [])
  ∧ wattages (outbox_of (faikin_comp_estimate sample_builtins fallback_config
                           "state/ac1" {[ "comp" := PyInt 42 ]}
                           (Qc_of_Z 1015) holding_store)) = [].
Proof.
  destruct (hold_window_closed_on_the_right sample_builtins fallback_config
              "state/ac1" "ac1" {[ "comp" := PyInt 42 ]} 200 (Qc_of_Z 1000)
              (Qc_of_Z 1015) holding_store holding_rec)
    as (H1 & H2 & _); [reflexivity|reflexivity|reflexivity|reflexivity|
                       qc_ne|reflexivity|].
  split; [exact H1|exact H2].
Defined.

(** ** Independence of the units *)

(** C9. The energy update, the power publish, the discovery and the two
    handlers for unit [a] leave the stored dict of every other unit [b]
    exactly as it was, absent ones included. *)
Theorem other_units_untouched
    (B : Builtins) (cfg : Config) (a b : string)
    (σ : gmap string unit_rec) :
  a ≠ b →
  (∀ wh ts, store_of (_update_from_energy B cfg a wh ts σ) !! b = σ !! b)
  ∧ (∀ w, store_of (_publish_power cfg a w σ) !! b = σ !! b)
  ∧ (∀ dev_id url, store_of (_discovery cfg a dev_id url σ) !! b = σ !! b)
  ∧ (∀ topic payload_obj clock, after_slash topic = Some a →
       store_of (faikin_energy_tick B cfg topic payload_obj clock σ) !! b
         = σ !! b
       ∧ store_of (faikin_comp_estimate B cfg topic payload_obj clock σ) !! b
         = σ !! b).
Proof.
  intros Hab. repeat split.
  - intros wh ts. destruct (update_effect B cfg a wh ts σ)
      as (f & ws & o & -> & _).
    by apply lookup_upd_ne.
  - intros w. rewrite publish_power_run. by apply lookup_upd_ne.
  - intros dev_id url.
    destruct (discovery_closed cfg a dev_id url σ) as (dt & dp & ->).
    by apply lookup_upd_ne.
  - destruct (handle_effect B cfg (EnergyTick topic payload_obj clock) σ)
      as [[E _]|(u & f & ds & ws & o & E & Hreach & _)];
      cbn [handle] in E; rewrite E; [done|].
    apply bool_decide_eq_true in Hreach. cbn [store_of fst snd].
    apply lookup_upd_ne. congruence.
  - destruct (handle_effect B cfg (CompEstimate topic payload_obj clock) σ)
      as [[E _]|(u & f & ds & ws & o & E & Hreach & _)];
      cbn [handle] in E; rewrite E; [done|].
    cbn [reaches_discovery] in Hreach. apply andb_true_iff in Hreach as [_ Hreach].
    apply bool_decide_eq_true in Hreach. cbn [store_of fst snd].
    apply lookup_upd_ne. congruence.
Qed.

Lemma other_units_untouched_witness :
  store_of (faikin_energy_tick sample_builtins default_config "state/ac1"
              {[ "Wh" := PyInt 200 ]} (Qc_of_Z 1010) two_unit_store) !! "ac2"
    = Some holding_rec.
Proof.
  destruct (other_units_untouched sample_builtins default_config "ac1" "ac2"
              two_unit_store) as (_ & _ & _ & H); [discriminate|].
  destruct (H "state/ac1" {[ "Wh" := PyInt 200 ]} (Qc_of_Z 1010)) as [-> _];
    reflexivity.
Defined.

(** ** Parse failures *)

(** C2 as stated fails on first contact: a tick for a unit not seen before
    whose energy field is the text "abc" publishes the announcement and
    creates the dict of the unit. *)
Lemma unparsable_first_tick_is_announced :
  ({[ "Wh" := PyStr "abc" ]} : gmap string pyval) !! "Wh"
    ≫= py_int sample_builtins = None
  ∧ (∅ : gmap string unit_rec) !! "ac1" = None
  ∧ length (outbox_of (faikin_energy_tick sample_builtins default_config
                         "state/ac1" {[ "Wh" := PyStr "abc" ]} (Qc_of_Z 5)
                         ∅)) = 1
  ∧ store_of (faikin_energy_tick sample_builtins default_config "state/ac1"
                {[ "Wh" := PyStr "abc" ]} (Qc_of_Z 5) ∅) !! "ac1"
    = Some (set_discovered empty_rec).
Proof. repeat split; vm_compute; reflexivity. Qed.

(** C2, as the code has it.  A tick whose energy field does not parse
    publishes no wattage and changes no estimation field of any dict.  When
    its unit is already announced, or its topic names no unit, nothing at all
    is published and the store is unchanged; otherwise the handler has
    already announced the unit: exactly that one message goes out and the
    dict of the unit is created or marked. *)
Theorem unparsable_tick_only_announces
    (B : Builtins) (cfg : Config) (topic : string)
    (payload_obj : gmap string pyval) (clock : Qc)
    (σ : gmap string unit_rec) :
  payload_obj !! "Wh" ≫= py_int B = None →
  wattages (outbox_of (faikin_energy_tick B cfg topic payload_obj clock σ))
    = []
  ∧ (∀ u, estimation_fields
            (rec_of u
               (store_of (faikin_energy_tick B cfg topic payload_obj clock σ)))
          = estimation_fields (rec_of u σ))
  ∧ (after_slash topic = None
     ∨ (∃ unit, after_slash topic = Some unit
                ∧ discovered (rec_of unit σ) = true) →
     faikin_energy_tick B cfg topic payload_obj clock σ = (Returned (), σ, []))
  ∧ (∀ unit, after_slash topic = Some unit →
       discovered (rec_of unit σ) = false →
       announcements unit
         (outbox_of (faikin_energy_tick B cfg topic payload_obj clock σ)) = 1
       ∧ length
           (outbox_of (faikin_energy_tick B cfg topic payload_obj clock σ)) = 1
       ∧ store_of (faikin_energy_tick B cfg topic payload_obj clock σ) !! unit
         = Some (set_discovered (rec_of unit σ))).
Proof.
  intros Hwh. destruct (after_slash topic) as [unit|] eqn:Hu.
  - destruct (energy_tick_closed B cfg topic payload_obj clock σ unit Hu)
      as (dt & dp & ->). rewrite Hwh. cbn [outbox_of store_of fst snd].
    split; [by destruct (discovered (rec_of unit σ))|]. split; [|split].
    + intros u. destruct (decide (unit = u)) as [<-|Hne].
      * rewrite rec_of_upd. unfold mark_discovered.
        by destruct (discovered (rec_of unit σ)).
      * by rewrite rec_of_upd_ne.
    + intros [?|(u & [= <-] & Hd)]; [done|].
      by rewrite Hd, upd_mark_discovered_id.
    + intros u [= <-] Hd. rewrite Hd, lookup_upd.
      split; [|split]; [|done|].
      * rewrite announcements_discovery. by rewrite decide_True.
      * unfold mark_discovered. by rewrite Hd.
  - rewrite energy_tick_no_unit by done. repeat split; try done.
Qed.

Lemma unparsable_tick_only_announces_witness :
  faikin_energy_tick sample_builtins default_config "state/ac1"
    {[ "Wh" := PyStr "abc" ]} (Qc_of_Z 1010) tracked_store
  = (Returned (), tracked_store, []).
Proof.
  destruct (unparsable_tick_only_announces sample_builtins default_config
              "state/ac1" {[ "Wh" := PyStr "abc" ]} (Qc_of_Z 1010)
              tracked_store) as (_ & _ & H & _); [reflexivity|].
  apply H. right. exists "ac1". split; reflexivity.
Defined.

(** ** Invariants over message sequences *)

Section Sequences.
Context (B : Builtins) (cfg : Config).
Implicit Types (σ : gmap string unit_rec) (cs : list call).
Local Open Scope Qc_scope.

Lemma run_cons c cs σ :
  run B cfg (c :: cs) σ =
    (value_of (run B cfg cs (store_of (handle B cfg c σ))),
     store_of (run B cfg cs (store_of (handle B cfg c σ))),
     outbox_of (handle B cfg c σ)
     ++ outbox_of (run B cfg cs (store_of (handle B cfg c σ)))).
Proof.
  cbn [run]. unfold value_of, store_of, outbox_of.
  destruct (handle B cfg c σ) as [[o σ1] out1]. cbn [fst snd].
  by destruct (run B cfg cs σ1) as [[o2 σ2] out2].
Qed.

(** Every wattage of a run went through the clamp and the rounding of
    [_publish_power]. *)
Lemma run_wattages_clamped cs σ w :
  w ∈ wattages (outbox_of (run B cfg cs σ)) →
  ∃ raw, w = py_round1 (clamp_watts cfg raw).
Proof.
  revert σ. induction cs as [|c cs IH]; intros σ.
  - cbn. by intros ?%elem_of_nil.
  - rewrite run_cons. cbn [outbox_of snd]. rewrite wattages_app.
    intros [Hin|Hin]%elem_of_app; [|by eapply IH].
    destruct (handle_effect B cfg c σ)
      as [[E _]|(u & f & ds & ws & o & E & _ & _ & _ & Hds)]; rewrite E in Hin.
    + by apply elem_of_nil in Hin.
    + cbn [outbox_of snd] in Hin. rewrite wattages_app, wattages_power in Hin.
      apply elem_of_app in Hin as [Hin|Hin].
      * destruct Hds as [[_ ->]|[_ (dt & dp & ->)]];
          by apply elem_of_nil in Hin.
      * apply list_elem_of_fmap in Hin as (raw & -> & _). by exists raw.
Qed.

(** One handler invocation, seen from the announcement of [u]. *)
Lemma handle_announces c σ u :
  announcements u (outbox_of (handle B cfg c σ))
    = (if discovered (rec_of u σ) then 0%nat
       else if reaches_discovery cfg u c then 1%nat else 0%nat)
  ∧ discovered (rec_of u (store_of (handle B cfg c σ)))
    = discovered (rec_of u σ) || reaches_discovery cfg u c.
Proof.
  destruct (handle_effect B cfg c σ)
    as [[E Hno]|(unit & f & ds & ws & o & E & Hreach & Hother & Hf & Hds)];
    rewrite E; cbn [outbox_of store_of fst snd].
  - rewrite Hno, orb_false_r. split; [|done].
    by destruct (discovered (rec_of u σ)).
  - rewrite announcements_app, announcements_power, Nat.add_0_r.
    destruct (decide (unit = u)) as [<-|Hne].
    + rewrite rec_of_upd, Hf, Hreach, orb_true_r. split; [|done].
      destruct Hds as [[-> ->]|[-> (dt & dp & ->)]]; [done|].
      rewrite announcements_discovery. by rewrite decide_True.
    + rewrite rec_of_upd_ne by done. rewrite (Hother u) by done.
      rewrite orb_false_r. split; [|done].
      destruct Hds as [[_ ->]|[_ (dt & dp & ->)]].
      * by destruct (discovered (rec_of u σ)).
      * rewrite announcements_discovery. rewrite decide_False by done.
        by destruct (discovered (rec_of u σ)).
Qed.
End Sequences.

(** C6 as stated fails by the rounding of the payload: with [min_power_w] at
    50.04, the update (101, 1100) on (last = 100, t = 1000) computes 36 W,
    raises it to 50.04 W and publishes 50.0, below the floor. *)
Lemma rounded_publish_below_floor :
  (0 < MIN_POWER_W fine_floor_config)%Qc
  ∧ (0 < tick_watts 100 (Qc_of_Z 1000) 101 (Qc_of_Z 1100))%Qc
  ∧ outbox_of (_update_from_energy sample_builtins fine_floor_config "ac1" 101
                 (Qc_of_Z 1100) tracked_store)
    = [PowerState "ac1" (power_topic "ac1") (Qc_of_Z 50)]
  ∧ (Qc_of_Z 50 < MIN_POWER_W fine_floor_config)%Qc.
Proof.
  split; [qc_lt|]. split; [qc_lt|]. split; [|qc_lt].
  rewrite (update_tick_run sample_builtins fine_floor_config "ac1" 101 100
             (Qc_of_Z 1000) (Qc_of_Z 1100) tracked_store tracked_rec);
    [|reflexivity|reflexivity|reflexivity|lia|reflexivity].
  assert (py_round1
            (clamp_watts fine_floor_config
               (tick_watts 100 (Qc_of_Z 1000) 101 (Qc_of_Z 1100)))
          = Qc_of_Z 50) as -> by qc_eq.
  reflexivity.
Qed.

(** C6, as the code has it.  [_publish_power] publishes a wattage that is
    never negative; when the floor and the raw value are both strictly
    positive, the wattage it remembers is at least the floor and the
    published one, its rounding to one decimal, is at least the floor
    rounded to one decimal.  Hence every wattage published along any
    sequence of handler invocations, by the estimator or by the fallback, is
    non-negative and, under a positive floor, either 0 or at least the
    rounded floor. *)
Theorem published_wattage_nonneg_and_floored (B : Builtins) (cfg : Config) :
  (∀ (unit : string) (raw : Qc) (σ : gmap string unit_rec),
     ∃ v, last_w (rec_of unit (store_of (_publish_power cfg unit raw σ)))
            = Some v
          ∧ outbox_of (_publish_power cfg unit raw σ)
            = [PowerState unit (power_topic unit) (py_round1 v)]
          ∧ (0 ≤ py_round1 v)%Qc
          ∧ ((0 < MIN_POWER_W cfg)%Qc → (0 < raw)%Qc →
             (MIN_POWER_W cfg ≤ v)%Qc
             ∧ (py_round1 (MIN_POWER_W cfg) ≤ py_round1 v)%Qc))
  ∧ (∀ (cs : list call) (σ : gmap string unit_rec) (w : Qc),
       w ∈ wattages (outbox_of (run B cfg cs σ)) →
       (0 ≤ w)%Qc
       ∧ ((0 < MIN_POWER_W cfg)%Qc →
          w = 0%Qc ∨ (py_round1 (MIN_POWER_W cfg) ≤ w)%Qc)).
Proof.
  split.
  - intros unit raw σ. exists (clamp_watts cfg raw).
    rewrite publish_power_run. cbn [store_of outbox_of fst snd].
    rewrite rec_of_upd. split; [done|]. split; [done|].
    split; [apply py_round1_nonneg, clamp_watts_nonneg|].
    intros Hmin Hraw.
    pose proof (clamp_watts_floor cfg raw Hmin Hraw) as Hfloor.
    split; [exact Hfloor|by apply py_round1_mono].
  - intros cs σ w (raw & ->)%run_wattages_clamped.
    split; [apply py_round1_nonneg, clamp_watts_nonneg|].
    intros Hmin.
    destruct (clamp_watts_zero_or_floor cfg raw Hmin) as [->|Hfloor].
    + left. apply py_round1_0.
    + right. by apply py_round1_mono.
Qed.

(** C8 as stated fails when the first contact is an auxiliary signal and
    the fallback is disabled, as it is by default: such messages never
    announce the unit. *)
Lemma auxiliary_contact_without_fallback_not_announced :
  ENABLE_COMP_FALLBACK default_config = false
  ∧ after_slash "state/ac1" = Some "ac1"
  ∧ announcements "ac1"
      (outbox_of (run sample_builtins default_config
                    [CompEstimate "state/ac1" {[ "comp" := PyInt 30 ]}
                       (Qc_of_Z 5);
                     CompEstimate "state/ac1" {[ "fanfreq" := PyInt 7 ]}
                       (Qc_of_Z 6)] ∅)) = 0.
Proof. repeat split; vm_compute; reflexivity. Qed.

(** C8, as the code has it.  Over any sequence of handler invocations the
    announcement of a unit is published at most once: never when the unit is
    already announced, and otherwise exactly once if some invocation gets as
    far as the discovery for that unit (any energy tick on its topic, or an
    auxiliary signal while the fallback is enabled), else not at all. *)
Theorem announced_once_when_reached
    (B : Builtins) (cfg : Config) (cs : list call)
    (σ : gmap string unit_rec) (unit : string) :
  announcements unit (outbox_of (run B cfg cs σ))
    = (if discovered (rec_of unit σ) then 0
       else if existsb (reaches_discovery cfg unit) cs then 1 else 0)
  ∧ announcements unit (outbox_of (run B cfg cs σ)) ≤ 1.
Proof.
  assert (announcements unit (outbox_of (run B cfg cs σ))
    = (if discovered (rec_of unit σ) then 0
       else if existsb (reaches_discovery cfg unit) cs then 1 else 0)) as E.
  { revert σ. induction cs as [|c cs IH]; intros σ.
    - cbn. by destruct (discovered (rec_of unit σ)).
    - rewrite run_cons. cbn [outbox_of snd existsb].
      rewrite announcements_app, IH.
      destruct (handle_announces B cfg c σ unit) as [-> ->].
      destruct (discovered (rec_of unit σ)); [done|].
      by destruct (reaches_discovery cfg unit c). }
  split; [exact E|]. rewrite E.
  destruct (discovered (rec_of unit σ)); [lia|].
  destruct (existsb _ cs); lia.
Qed.

(** * Further properties of the code *)

(** ** The update, case by case *)

Section UpdateCases.
Context (B : Builtins) (cfg : Config).
Implicit Types (σ : gmap string unit_rec) (unit : string) (r : unit_rec).
Local Open Scope Qc_scope.

Lemma present_of_last_wh unit σ l :
  last_wh (rec_of unit σ) = Some l → σ !! unit = Some (rec_of unit σ).
Proof. unfold rec_of. by destruct (σ !! unit). Qed.

(** The five outcomes of [_update_from_energy], with the dict they leave. *)
Lemma update_cases unit wh ts σ :
  ((last_wh (rec_of unit σ) = None ∨ last_ts (rec_of unit σ) = None
    ∨ ∃ l, last_wh (rec_of unit σ) = Some l ∧ (wh < l)%Z)
   ∧ _update_from_energy B cfg unit wh ts σ =
       (Returned (), <[unit := {| last_wh := Some wh; last_ts := Some ts;
                         hold_until := Some 0; last_w := Some 0;
                         discovered := discovered (rec_of unit σ) |}]> σ,
        [PowerState unit (power_topic unit) 0]))
  ∨ (∃ t, last_wh (rec_of unit σ) = Some wh
          ∧ last_ts (rec_of unit σ) = Some t
          ∧ hold_expired (rec_of unit σ) ts
          ∧ _update_from_energy B cfg unit wh ts σ =
              (Returned (), <[unit := {| last_wh := Some wh; last_ts := Some t;
                                hold_until := Some 0; last_w := Some 0;
                                discovered := discovered (rec_of unit σ) |}]> σ,
               [PowerState unit (power_topic unit) 0]))
  ∨ (∃ t, last_wh (rec_of unit σ) = Some wh
          ∧ last_ts (rec_of unit σ) = Some t
          ∧ ¬ hold_expired (rec_of unit σ) ts
          ∧ σ !! unit = Some (rec_of unit σ)
          ∧ _update_from_energy B cfg unit wh ts σ = (Returned (), σ, []))
  ∨ (∃ l t, last_wh (rec_of unit σ) = Some l
            ∧ last_ts (rec_of unit σ) = Some t ∧ (l < wh)%Z
            ∧ (float_overflow ≤ wh - l)%Z
            ∧ σ !! unit = Some (rec_of unit σ)
            ∧ _update_from_energy B cfg unit wh ts σ
              = (Raised OverflowError, σ, []))
  ∨ (∃ l t, last_wh (rec_of unit σ) = Some l
            ∧ last_ts (rec_of unit σ) = Some t ∧ (l < wh)%Z
            ∧ (wh - l < float_overflow)%Z
            ∧ _update_from_energy B cfg unit wh ts σ =
                (Returned (), <[unit := {| last_wh := Some wh; last_ts := Some ts;
                                  hold_until :=
                                    Some (ts + hold_duration B cfg
                                                 (tick_dt t ts));
                                  last_w :=
                                    Some (clamp_watts cfg
                                            (tick_watts l t wh ts));
                                  discovered :=
                                    discovered (rec_of unit σ) |}]> σ,
                 [PowerState unit (power_topic unit)
                    (py_round1 (clamp_watts cfg (tick_watts l t wh ts)))])).
Proof.
  assert (last_wh (rec_of unit σ) = None ∨ last_ts (rec_of unit σ) = None
          ∨ (∃ l, last_wh (rec_of unit σ) = Some l ∧ (wh < l)%Z) →
    _update_from_energy B cfg unit wh ts σ =
       (Returned (), <[unit := {| last_wh := Some wh; last_ts := Some ts;
                         hold_until := Some 0; last_w := Some 0;
                         discovered := discovered (rec_of unit σ) |}]> σ,
        [PowerState unit (power_topic unit) 0])) as Hreinit.
  { intros H. unfold _update_from_energy. rewrite bind_run, setdefault_run.
    cbn [value_of store_of outbox_of fst snd].
    destruct (last_wh (rec_of unit σ)) as [l|] eqn:Hl;
      [destruct (last_ts (rec_of unit σ)) as [t|] eqn:Ht|].
    - destruct H as [?|[?|(l' & [= <-] & Hlt)]]; [done..|].
      rewrite decide_True by done. by rewrite reinit_run.
    - by rewrite reinit_run.
    - by rewrite reinit_run. }
  destruct (last_wh (rec_of unit σ)) as [l|] eqn:Hl; [|left; auto].
  destruct (last_ts (rec_of unit σ)) as [t|] eqn:Ht; [|left; auto].
  pose proof (present_of_last_wh _ _ _ Hl) as Hr.
  destruct (Z.lt_trichotomy wh l) as [Hlt|[->|Hgt]].
  - left. split; [eauto|]. apply Hreinit. eauto.
  - right. destruct (decide (hold_expired (rec_of unit σ) ts)) as [He|He].
    + left. exists t. repeat (split; [done|]).
      by apply update_same_energy_expired.
    + right; left. exists t. repeat (split; [done|]).
      by apply update_same_energy_kept with t (rec_of unit σ).
  - right; right; right.
    destruct (decide (wh - l < float_overflow)%Z) as [Hin|Hout].
    + right. exists l, t. repeat (split; [done|]).
      by apply update_tick_run.
    + left. exists l, t. repeat (split; [done|]). split; [lia|].
      split; [done|]. apply update_overflow_run with l t (rec_of unit σ);
        [done..|lia].
Qed.
End UpdateCases.

(** ** Topics *)

Lemma append_cons (c : ascii) (s t : string) :
  String c s +:+ t = String c (s +:+ t).
Proof. done. Qed.

Lemma append_assoc (a b c : string) : (a +:+ b) +:+ c = a +:+ (b +:+ c).
Proof.
  induction a as [|x a IH]; [done|]. by rewrite !append_cons, IH.
Qed.

Lemma after_slash_append (prefix rest : string) :
  no_slash prefix = true →
  after_slash (prefix +:+ "/" +:+ rest) = Some rest.
Proof.
  induction prefix as [|c prefix IH]; [done|].
  rewrite append_cons. cbn.
  destruct (Ascii.eqb c "/"%char); [done|]. exact IH.
Qed.

Lemma after_slash_no_slash (topic : string) :
  no_slash topic = true → after_slash topic = None.
Proof.
  induction topic as [|c topic IH]; [done|]. cbn.
  destruct (Ascii.eqb c "/"%char); [done|]. exact IH.
Qed.

(** X1. The unit of a topic [prefix/unit] is recovered exactly when the
    prefix has no slash of its own; with a prefix [p1/p2] the handlers take
    [p2/unit] for the unit. *)
Theorem unit_of_prefixed_topic (prefix unit : string) :
  no_slash prefix = true →
  after_slash (prefix +:+ "/" +:+ unit) = Some unit
  ∧ ∀ outer, no_slash outer = true →
      after_slash ((outer +:+ "/" +:+ prefix) +:+ "/" +:+ unit)
        = Some (prefix +:+ "/" +:+ unit).
Proof.
  intros Hp. split; [by apply after_slash_append|].
  intros outer Ho. rewrite !append_assoc.
  by rewrite (after_slash_append outer _ Ho).
Qed.

Lemma unit_of_prefixed_topic_witness :
  after_slash ("state" +:+ "/" +:+ "ac1") = Some "ac1"
  ∧ after_slash (("home" +:+ "/" +:+ "state") +:+ "/" +:+ "ac1")
    = Some ("state" +:+ "/" +:+ "ac1").
Proof.
  destruct (unit_of_prefixed_topic "state" "ac1") as [H1 H2]; [reflexivity|].
  split; [exact H1|]. apply H2. reflexivity.
Defined.

(** X2. On a topic without any slash both handlers return at once: nothing
    is published, not even the announcement, and the store is unchanged. *)
Theorem topic_without_slash_is_dropped
    (B : Builtins) (cfg : Config) (topic : string)
    (payload_obj : gmap string pyval) (clock : Qc)
    (σ : gmap string unit_rec) :
  no_slash topic = true →
  faikin_energy_tick B cfg topic payload_obj clock σ = (Returned (), σ, [])
  ∧ faikin_comp_estimate B cfg topic payload_obj clock σ = (Returned (), σ, []).
Proof.
  intros H%after_slash_no_slash.
  split; [by apply energy_tick_no_unit|by apply comp_estimate_no_unit].
Qed.

Lemma topic_without_slash_is_dropped_witness :
  faikin_energy_tick sample_builtins fallback_config "ac1"
    {[ "Wh" := PyInt 200 ]} (Qc_of_Z 1010) tracked_store
    = (Returned (), tracked_store, [])
  ∧ faikin_comp_estimate sample_builtins fallback_config "ac1"
      {[ "comp" := PyInt 42 ]} (Qc_of_Z 1010) tracked_store
    = (Returned (), tracked_store, []).
Proof.
  split.
  - apply (topic_without_slash_is_dropped sample_builtins fallback_config
             "ac1" {[ "Wh" := PyInt 200 ]} (Qc_of_Z 1010) tracked_store).
    reflexivity.
  - apply (topic_without_slash_is_dropped sample_builtins fallback_config
             "ac1" {[ "comp" := PyInt 42 ]} (Qc_of_Z 1010) tracked_store).
    reflexivity.
Defined.

(** ** The compressor estimate *)

Section Estimate.
Local Open Scope Qc_scope.

Lemma fifty_pos : 0 < Qc_of_Z 50.
Proof. done. Qed.

Lemma Qcmax_l (a b : Qc) : b ≤ a → Qcmax a b = a.
Proof.
  intros H. unfold Qcmax. destruct (decide (a ≤ b)); [|done].
  by apply Qcle_antisym.
Qed.

Lemma estimate_positive (hz : Qc) (fan : option Qc) :
  0 < hz → estimate_power_from_comp (Some hz) fan = hz * Qc_of_Z 50.
Proof.
  intros Hhz. unfold estimate_power_from_comp.
  rewrite decide_False by by apply Qclt_not_le.
  rewrite py_max_Qcmax. unfold Qcmax. rewrite decide_True; [done|].
  apply Qclt_le_weak, Qcmult_pos_pos; [done|apply fifty_pos].
Qed.

Lemma estimate_nonpositive (hz : Qc) (fan : option Qc) :
  hz ≤ 0 → estimate_power_from_comp (Some hz) fan = 0.
Proof.
  intros Hhz. unfold estimate_power_from_comp. by rewrite decide_True.
Qed.

(** X3. The compressor estimate ignores the fan signal, is 0 for an absent
    or non-positive compressor signal and 50 W per unit otherwise; it is
    never negative and never decreases when the signal grows. *)
Theorem estimate_linear_in_comp_only (fan fan' : option Qc) :
  (∀ comp, estimate_power_from_comp comp fan
           = estimate_power_from_comp comp fan')
  ∧ estimate_power_from_comp None fan = 0
  ∧ (∀ hz, hz ≤ 0 → estimate_power_from_comp (Some hz) fan = 0)
  ∧ (∀ hz, 0 < hz →
       estimate_power_from_comp (Some hz) fan = hz * Qc_of_Z 50)
  ∧ (∀ comp, 0 ≤ estimate_power_from_comp comp fan)
  ∧ (∀ hz1 hz2, hz1 ≤ hz2 →
       estimate_power_from_comp (Some hz1) fan
       ≤ estimate_power_from_comp (Some hz2) fan).
Proof.
  assert (∀ hz, 0 ≤ estimate_power_from_comp (Some hz) fan) as Hnn.
  { intros hz. destruct (decide (0 < hz)) as [H|H].
    - rewrite estimate_positive by done.
      apply Qclt_le_weak, Qcmult_pos_pos; [done|apply fifty_pos].
    - rewrite estimate_nonpositive by by apply Qcnot_lt_le. apply Qcle_refl. }
  split; [done|]. split; [done|].
  split; [intros hz Hhz; by apply estimate_nonpositive|].
  split; [intros hz Hhz; by apply estimate_positive|].
  split; [intros [hz|]; [apply Hnn|apply Qcle_refl]|].
  intros hz1 hz2 Hle. destruct (decide (0 < hz1)) as [H1|H1].
  - rewrite !estimate_positive;
      [|by eapply Qclt_le_trans|done].
    apply Qcmult_le_mono_nonneg_r; [apply Qclt_le_weak, fifty_pos|done].
  - rewrite (estimate_nonpositive hz1) by by apply Qcnot_lt_le. apply Hnn.
Qed.

Lemma clamp_watts_not_pos (cfg : Config) (w : Qc) :
  ¬ 0 < w → clamp_watts cfg w = 0.
Proof.
  intros Hw. apply Qcnot_lt_le in Hw. unfold clamp_watts.
  destruct (decide (w < 0)).
  - destruct (decide (_ ∧ _)) as [[_ H]|_];
      [by apply Qclt_irrefl in H|done].
  - destruct (decide (_ ∧ _)) as [[_ H]|_].
    + by apply Qclt_not_le in H.
    + apply Qcle_antisym; [assumption|by apply Qcnot_lt_le].
Qed.

Lemma py_round1_pos_inv (x : Qc) : 0 < py_round1 x → 0 < x.
Proof.
  intros H. apply Qcnot_le_lt. intros Hx.
  apply py_round1_mono in Hx. rewrite py_round1_0 in Hx.
  by apply Qcle_not_lt in Hx.
Qed.

(** What was published, handed to the publisher again, comes out the
    same. *)
Lemma published_value_stable (cfg : Config) (w : Qc) :
  py_round1 (clamp_watts cfg (py_round1 (clamp_watts cfg w)))
  = py_round1 (clamp_watts cfg w).
Proof.
  destruct (decide (0 < py_round1 (clamp_watts cfg w))) as [Hv|Hv].
  - pose proof (py_round1_pos_inv _ Hv) as Hc.
    assert (0 < w) as Hw.
    { apply Qcnot_le_lt. intros Hle.
      rewrite clamp_watts_not_pos in Hc by by apply Qcle_not_lt.
      by apply Qclt_irrefl in Hc. }
    rewrite (clamp_watts_pos cfg _ Hv).
    destruct (decide (MIN_POWER_W cfg = 0)) as [E|NE];
      [apply py_round1_idempotent|].
    assert (MIN_POWER_W cfg ≤ clamp_watts cfg w) as Hfloor.
    { rewrite (clamp_watts_pos cfg w Hw), decide_False by exact NE.
      apply Qcmax_ge_r. }
    unfold Qcmax at 1. destruct (decide (_ ≤ _)) as [Hle|_];
      [|apply py_round1_idempotent].
    apply Qcle_antisym.
    + by apply py_round1_mono.
    + rewrite <- (py_round1_idempotent (clamp_watts cfg w)).
      by apply py_round1_mono.
  - assert (py_round1 (clamp_watts cfg w) = 0) as ->.
    { apply Qcle_antisym; [by apply Qcnot_lt_le|].
      apply py_round1_nonneg, clamp_watts_nonneg. }
    by rewrite clamp_watts_0, py_round1_0.
Qed.

(** X4. Publishing is stable: a wattage that was published, handed to
    [_publish_power] again for any unit and store, is published unchanged. *)
Theorem republishing_is_stable
    (cfg : Config) (unit unit' : string) (w : Qc)
    (σ σ' : gmap string unit_rec) :
  ∃ v, wattages (outbox_of (_publish_power cfg unit w σ)) = [v]
       ∧ wattages (outbox_of (_publish_power cfg unit' v σ')) = [v].
Proof.
  exists (py_round1 (clamp_watts cfg w)). rewrite !publish_power_run.
  cbn [outbox_of snd wattages omap list_omap]. cbn.
  by rewrite published_value_stable.
Qed.
End Estimate.

(** ** The fallback handler *)

Section Fallback.
Context (B : Builtins) (cfg : Config).
Implicit Types (σ : gmap string unit_rec) (unit : string).
Local Open Scope Qc_scope.

Lemma comp_fan_bad_fan (payload_obj : gmap string pyval) (v : pyval) :
  payload_obj !! "fanfreq" = Some v → v ≠ PyNone → py_float B v = None →
  comp_fan B payload_obj = (0, None).
Proof.
  intros Hv Hne Hbad. unfold comp_fan. rewrite Hv. cbn [default].
  destruct (match default PyNone (payload_obj !! "comp") with
            | PyNone => Some 0
            | _ => py_float B (default PyNone (payload_obj !! "comp"))
            end) as [c|]; [|done].
  destruct v; try done; cbn in Hbad |- *; try discriminate Hbad;
    by rewrite Hbad.
Qed.

(** X5. One unconvertible signal spoils both: when the fan signal is
    present but [float] rejects it, the compressor signal is reset to 0 as
    well, so an enabled fallback outside a hold window publishes 0 W whatever
    the compressor signal is. *)
Theorem bad_fan_signal_zeroes_estimate
    (topic unit : string) (payload_obj : gmap string pyval) (v : pyval)
    (clock : Qc) (σ : gmap string unit_rec) :
  payload_obj !! "fanfreq" = Some v → v ≠ PyNone → py_float B v = None →
  ENABLE_COMP_FALLBACK cfg = true → after_slash topic = Some unit →
  ¬ hold_active (rec_of unit σ) clock →
  comp_fan B payload_obj = (0, None)
  ∧ wattages (outbox_of (faikin_comp_estimate B cfg topic payload_obj clock σ))
    = [0].
Proof.
  intros Hv Hne Hbad He Hu Hh.
  pose proof (comp_fan_bad_fan _ _ Hv Hne Hbad) as Hcf. split; [exact Hcf|].
  destruct (comp_estimate_closed B cfg topic payload_obj clock σ unit He Hu)
    as (dt & dp & ->). cbn zeta.
  rewrite decide_False by exact Hh. cbn [outbox_of snd].
  rewrite wattages_app, Hcf. cbn [fst snd estimate_power_from_comp].
  rewrite decide_True by apply Qcle_refl. rewrite clamp_watts_0, py_round1_0.
  by destruct (discovered (rec_of unit σ)).
Qed.


(** X7. The fallback handler never touches the estimator's baseline: the
    stored reading, its timestamp and the hold of every unit are the same
    after any auxiliary-signal message as before. *)
Theorem fallback_keeps_baseline
    (topic : string) (payload_obj : gmap string pyval) (clock : Qc)
    (σ : gmap string unit_rec) (u : string) :
  last_wh (rec_of u
             (store_of (faikin_comp_estimate B cfg topic payload_obj clock σ)))
    = last_wh (rec_of u σ)
  ∧ last_ts (rec_of u
               (store_of
                  (faikin_comp_estimate B cfg topic payload_obj clock σ)))
    = last_ts (rec_of u σ)
  ∧ hold_until (rec_of u
                  (store_of
                     (faikin_comp_estimate B cfg topic payload_obj clock σ)))
    = hold_until (rec_of u σ).
Proof.
  destruct (ENABLE_COMP_FALLBACK cfg) eqn:He;
    [|by rewrite comp_estimate_disabled].
  destruct (after_slash topic) as [unit|] eqn:Hu;
    [|by rewrite comp_estimate_no_unit].
  destruct (comp_estimate_closed B cfg topic payload_obj clock σ unit He Hu)
    as (dt & dp & ->). cbn zeta.
  destruct (decide (unit = u)) as [<-|Hne].
  - destruct (decide (_ ∧ _)); cbn [store_of fst snd]; rewrite rec_of_upd;
      cbn; unfold mark_discovered; by destruct (discovered (rec_of unit σ)).
  - destruct (decide (_ ∧ _)); cbn [store_of fst snd];
      by rewrite rec_of_upd_ne.
Qed.
End Fallback.

Lemma bad_fan_signal_zeroes_estimate_witness :
  comp_fan sample_builtins bad_fan_payload = (0%Qc, None)
  ∧ wattages (outbox_of (faikin_comp_estimate sample_builtins fallback_config
                           "state/ac1" bad_fan_payload (Qc_of_Z 1010)
                           tracked_store)) = [0%Qc].
Proof.
  apply (bad_fan_signal_zeroes_estimate sample_builtins fallback_config
           "state/ac1" "ac1" bad_fan_payload (PyStr "fast") (Qc_of_Z 1010)
           tracked_store); [reflexivity|discriminate|reflexivity|reflexivity|
                            reflexivity|].
  intros [Hne _]. by apply Hne.
Defined.


(** ** What every handler invocation keeps *)

Section Invariants.
Context (B : Builtins) (cfg : Config).
Implicit Types (σ : gmap string unit_rec) (unit u : string) (r : unit_rec).
Implicit Types (cs : list call).
Local Open Scope Qc_scope.

Lemma rec_of_insert unit σ r : rec_of unit (<[unit := r]> σ) = r.
Proof. unfold rec_of. by rewrite lookup_insert_eq. Qed.

Lemma rec_of_insert_ne unit u σ r :
  unit ≠ u → rec_of u (<[unit := r]> σ) = rec_of u σ.
Proof. intros. unfold rec_of. by rewrite lookup_insert_ne. Qed.

Lemma update_other unit u wh ts σ :
  unit ≠ u →
  rec_of u (store_of (_update_from_energy B cfg unit wh ts σ)) = rec_of u σ.
Proof.
  intros Hne.
  destruct (update_effect B cfg unit wh ts σ) as (f & ws & o & -> & _).
  cbn [store_of fst snd]. by apply rec_of_upd_ne.
Qed.

(** A property of dicts kept by the announcement mark, by remembering a
    wattage and by the update is kept by every handler invocation. *)
Lemma handle_preserves (P : unit_rec → Prop) :
  (∀ r, P r → P (mark_discovered r)) →
  (∀ r w, P r → P (set_last_w w r)) →
  (∀ unit wh ts σ, P (rec_of unit σ) →
     P (rec_of unit (store_of (_update_from_energy B cfg unit wh ts σ)))) →
  ∀ c σ u, P (rec_of u σ) → P (rec_of u (store_of (handle B cfg c σ))).
Proof.
  intros Hmark Hw Hupd c σ u HP.
  destruct c as [topic payload_obj clock|topic payload_obj clock];
    cbn [handle].
  - destruct (after_slash topic) as [unit|] eqn:Hu;
      [|by rewrite energy_tick_no_unit].
    destruct (energy_tick_closed B cfg topic payload_obj clock σ unit Hu)
      as (dt & dp & ->).
    destruct (payload_obj !! "Wh" ≫= py_int B) as [wh|];
      cbn [store_of fst snd]; destruct (decide (unit = u)) as [<-|Hne].
    + apply Hupd. rewrite rec_of_upd. by apply Hmark.
    + rewrite update_other by done. by rewrite rec_of_upd_ne.
    + rewrite rec_of_upd. by apply Hmark.
    + by rewrite rec_of_upd_ne.
  - destruct (ENABLE_COMP_FALLBACK cfg) eqn:He;
      [|by rewrite comp_estimate_disabled].
    destruct (after_slash topic) as [unit|] eqn:Hu;
      [|by rewrite comp_estimate_no_unit].
    destruct (comp_estimate_closed B cfg topic payload_obj clock σ unit He Hu)
      as (dt & dp & ->). cbn zeta.
    destruct (decide (_ ∧ _)); cbn [store_of fst snd];
      (destruct (decide (unit = u)) as [<-|Hne];
       [rewrite rec_of_upd|by rewrite rec_of_upd_ne]).
    + by apply Hmark.
    + cbn. by apply Hw, Hmark.
Qed.

Lemma run_preserves (P : unit_rec → Prop) :
  (∀ r, P r → P (mark_discovered r)) →
  (∀ r w, P r → P (set_last_w w r)) →
  (∀ unit wh ts σ, P (rec_of unit σ) →
     P (rec_of unit (store_of (_update_from_energy B cfg unit wh ts σ)))) →
  ∀ cs σ u, P (rec_of u σ) → P (rec_of u (store_of (run B cfg cs σ))).
Proof.
  intros Hmark Hw Hupd cs. induction cs as [|c cs IH]; intros σ u HP.
  - exact HP.
  - rewrite run_cons. cbn [store_of fst snd]. apply IH.
    by apply handle_preserves.
Qed.

Lemma update_keeps_coherent unit wh ts σ :
  coherent (rec_of unit σ) →
  coherent (rec_of unit (store_of (_update_from_energy B cfg unit wh ts σ))).
Proof.
  intros Hc.
  destruct (update_cases B cfg unit wh ts σ)
    as [[_ ->]|[(t & _ & _ & _ & ->)|[(t & _ & _ & _ & _ & ->)
        |[(l & t & _ & _ & _ & _ & _ & ->)
         |(l & t & _ & _ & _ & _ & ->)]]]];
    cbn [store_of fst snd]; rewrite ?rec_of_insert; [| |exact Hc|exact Hc|];
    unfold coherent; cbn; by eauto 10.
Qed.

Lemma update_keeps_hold_not_before_reading unit wh ts σ :
  hold_not_before_reading (rec_of unit σ) →
  hold_not_before_reading
    (rec_of unit (store_of (_update_from_energy B cfg unit wh ts σ))).
Proof.
  intros Hc.
  destruct (update_cases B cfg unit wh ts σ)
    as [[_ ->]|[(t & _ & _ & _ & ->)|[(t & _ & _ & _ & _ & ->)
        |[(l & t & _ & _ & _ & _ & _ & ->)
         |(l & t & _ & _ & _ & _ & ->)]]]];
    cbn [store_of fst snd]; rewrite ?rec_of_insert; [| |exact Hc|exact Hc|];
    unfold hold_not_before_reading; cbn; [by left..|].
  right. rewrite <- (Qcplus_0_r ts) at 1. apply Qcplus_le_mono_l.
  unfold hold_duration. destruct (py_float B (MARGIN_FACTOR cfg));
    apply Qcmax_ge_l.
Qed.
End Invariants.

(** X8. Starting from dicts in which the reading, its timestamp and the
    hold are present together (an empty store, for one), every sequence of
    handler invocations keeps them together, and every dict with a reading
    has a last wattage: the test on a missing timestamp next to a present
    reading never decides anything. *)
Theorem reading_fields_stay_together
    (B : Builtins) (cfg : Config) (cs : list call)
    (σ : gmap string unit_rec) (u : string) :
  coherent (rec_of u σ) → coherent (rec_of u (store_of (run B cfg cs σ))).
Proof.
  apply run_preserves.
  - intros r Hr. unfold mark_discovered. by destruct (discovered r).
  - intros r w (H1 & H2 & H3). unfold coherent; cbn. by eauto.
  - apply update_keeps_coherent.
Qed.

Lemma reading_fields_stay_together_witness :
  coherent
    (rec_of "ac1"
       (store_of (run sample_builtins fallback_config
                    [CompEstimate "state/ac1" {[ "comp" := PyInt 42 ]}
                       (Qc_of_Z 5);
                     EnergyTick "state/ac1" {[ "Wh" := PyInt 100 ]}
                       (Qc_of_Z 6)] ∅))).
Proof.
  apply (reading_fields_stay_together sample_builtins fallback_config).
  unfold coherent. cbn. repeat split; intros [x Hx]; discriminate Hx.
Defined.

(** X9. Starting from dicts whose hold is cleared or ends no earlier than
    their last reading, every sequence of handler invocations keeps it so: a
    stored nonzero [hold_until] never lies before the stored timestamp. *)
Theorem hold_never_before_last_reading
    (B : Builtins) (cfg : Config) (cs : list call)
    (σ : gmap string unit_rec) (u : string) :
  hold_not_before_reading (rec_of u σ) →
  hold_not_before_reading (rec_of u (store_of (run B cfg cs σ))).
Proof.
  apply run_preserves.
  - intros r Hr. unfold mark_discovered. by destruct (discovered r).
  - intros r w Hr. exact Hr.
  - apply update_keeps_hold_not_before_reading.
Qed.

Lemma hold_never_before_last_reading_witness :
  hold_not_before_reading
    (rec_of "ac1"
       (store_of (run sample_builtins default_config
                    [EnergyTick "state/ac1" {[ "Wh" := PyInt 100 ]}
                       (Qc_of_Z 6);
                     EnergyTick "state/ac1" {[ "Wh" := PyInt 101 ]}
                       (Qc_of_Z 16)] ∅))).
Proof.
  apply (hold_never_before_last_reading sample_builtins default_config).
  exact I.
Defined.

(** ** The remembered wattage *)

Section LastWattage.
Context (B : Builtins) (cfg : Config).
Implicit Types (σ : gmap string unit_rec) (unit u : string).
Implicit Types (out : list mqtt_msg).
Local Open Scope Qc_scope.

Lemma wattages_of_app u out1 out2 :
  wattages_of u (out1 ++ out2) = wattages_of u out1 ++ wattages_of u out2.
Proof. apply omap_app. Qed.

Lemma wattages_of_announcement u unit (b : bool) dtopic dpayload :
  wattages_of u (if b then [] else [Discovery unit dtopic dpayload]) = [].
Proof. by destruct b. Qed.

Lemma wattages_of_same unit topic w :
  wattages_of unit [PowerState unit topic w] = [w].
Proof. unfold wattages_of. cbn. by rewrite decide_True. Qed.

Lemma wattages_of_other unit u topic w :
  unit ≠ u → wattages_of u [PowerState unit topic w] = [].
Proof. intros. unfold wattages_of. cbn. by rewrite decide_False. Qed.

(** The update remembers what it publishes. *)
Lemma update_remembers unit u wh ts σ :
  remembered u σ (store_of (_update_from_energy B cfg unit wh ts σ))
    (outbox_of (_update_from_energy B cfg unit wh ts σ)).
Proof.
  unfold remembered, last_wattage_of.
  destruct (decide (unit = u)) as [<-|Hne].
  - destruct (update_cases B cfg unit wh ts σ)
      as [[_ ->]|[(t & _ & _ & _ & ->)|[(t & _ & _ & _ & _ & ->)
          |[(l & t & _ & _ & _ & _ & _ & ->)
           |(l & t & _ & _ & _ & _ & ->)]]]];
      cbn [store_of outbox_of fst snd];
      rewrite ?rec_of_insert, ?wattages_of_same; cbn; try done.
    + exists 0. by rewrite py_round1_0.
    + exists 0. by rewrite py_round1_0.
    + by eexists.
  - rewrite update_other by done.
    destruct (update_cases B cfg unit wh ts σ)
      as [[_ ->]|[(t & _ & _ & _ & ->)|[(t & _ & _ & _ & _ & ->)
          |[(l & t & _ & _ & _ & _ & _ & ->)
           |(l & t & _ & _ & _ & _ & ->)]]]];
      cbn [outbox_of snd]; by rewrite ?wattages_of_other.
Qed.

Lemma handle_remembers (c : call) σ u :
  remembered u σ (store_of (handle B cfg c σ)) (outbox_of (handle B cfg c σ)).
Proof.
  assert (∀ unit, last_w (rec_of u (upd unit mark_discovered σ))
                  = last_w (rec_of u σ)) as Hmark.
  { intros unit. destruct (decide (unit = u)) as [<-|Hne].
    - rewrite rec_of_upd. unfold mark_discovered.
      by destruct (discovered (rec_of unit σ)).
    - by rewrite rec_of_upd_ne. }
  destruct c as [topic payload_obj clock|topic payload_obj clock];
    cbn [handle].
  - destruct (after_slash topic) as [unit|] eqn:Hu;
      [|by rewrite energy_tick_no_unit].
    destruct (energy_tick_closed B cfg topic payload_obj clock σ unit Hu)
      as (dt & dp & ->).
    destruct (payload_obj !! "Wh" ≫= py_int B) as [wh|];
      cbn [store_of outbox_of fst snd].
    + pose proof (update_remembers unit u wh clock
                    (upd unit mark_discovered σ)) as H.
      unfold remembered, last_wattage_of in *.
      rewrite wattages_of_app, wattages_of_announcement. cbn [app].
      by rewrite Hmark in H.
    + unfold remembered, last_wattage_of.
      by rewrite wattages_of_announcement, Hmark.
  - destruct (ENABLE_COMP_FALLBACK cfg) eqn:He;
      [|by rewrite comp_estimate_disabled].
    destruct (after_slash topic) as [unit|] eqn:Hu;
      [|by rewrite comp_estimate_no_unit].
    destruct (comp_estimate_closed B cfg topic payload_obj clock σ unit He Hu)
      as (dt & dp & ->). cbn zeta.
    destruct (decide (_ ∧ _)); cbn [store_of outbox_of fst snd];
      unfold remembered, last_wattage_of.
    + by rewrite wattages_of_announcement, Hmark.
    + rewrite wattages_of_app, wattages_of_announcement. cbn [app].
      destruct (decide (unit = u)) as [<-|Hne].
      * rewrite rec_of_upd, wattages_of_same. cbn. by eexists.
      * rewrite rec_of_upd_ne, wattages_of_other by done. cbn.
        rewrite <- (Hmark unit). by rewrite rec_of_upd_ne.
Qed.
End LastWattage.

(** X10. [last_w] is what was last published, before its rounding: after
    any sequence of handler invocations, the last wattage published for a
    unit during the sequence is the one-decimal rounding of the [last_w] of
    that unit, and [last_w] keeps its former value when none was published
    for it. *)
Theorem last_w_is_last_published
    (B : Builtins) (cfg : Config) (cs : list call)
    (σ : gmap string unit_rec) (u : string) :
  match last_wattage_of u (outbox_of (run B cfg cs σ)) with
  | Some w =>
      ∃ v, last_w (rec_of u (store_of (run B cfg cs σ))) = Some v
           ∧ w = py_round1 v
  | None =>
      last_w (rec_of u (store_of (run B cfg cs σ))) = last_w (rec_of u σ)
  end.
Proof.
  revert σ. induction cs as [|c cs IH]; intros σ; [done|].
  rewrite run_cons. cbn [store_of outbox_of fst snd].
  specialize (IH (store_of (handle B cfg c σ))).
  pose proof (handle_remembers B cfg c σ u) as Hc.
  unfold remembered, last_wattage_of in *.
  rewrite wattages_of_app, last_app.
  destruct (last (wattages_of u (outbox_of (run B cfg cs _)))); [done|].
  rewrite IH. exact Hc.
Qed.

(** X11. Dicts are never removed and an announcement is never taken back:
    a unit present before a sequence of handler invocations is present after
    it, still announced if it was. *)
Theorem records_and_flags_persist
    (B : Builtins) (cfg : Config) (cs : list call)
    (σ : gmap string unit_rec) (u : string) (r : unit_rec) :
  σ !! u = Some r →
  ∃ r', store_of (run B cfg cs σ) !! u = Some r'
        ∧ (discovered r = true → discovered r' = true).
Proof.
  revert σ r. induction cs as [|c cs IH]; intros σ r Hr; [by exists r|].
  rewrite run_cons. cbn [store_of fst snd].
  destruct (handle_effect B cfg c σ)
    as [[-> _]|(unit & f & ds & ws & o & -> & _ & _ & Hf & _)];
    cbn [store_of fst snd]; [by apply IH|].
  destruct (decide (unit = u)) as [<-|Hne].
  - destruct (IH (upd unit f σ) (f (rec_of unit σ)) (lookup_upd _ _ _))
      as (r' & Hr' & Hd).
    exists r'. split; [done|]. intros _. by apply Hd.
  - apply IH. by rewrite lookup_upd_ne.
Qed.

Lemma records_and_flags_persist_witness :
  ∃ r', store_of (run sample_builtins default_config
                    [EnergyTick "state/ac2" {[ "Wh" := PyInt 7 ]} (Qc_of_Z 5);
                     EnergyTick "state/ac1" {[ "Wh" := PyInt 50 ]}
                       (Qc_of_Z 2000)] tracked_store) !! "ac1" = Some r'
        ∧ (discovered tracked_rec = true → discovered r' = true).
Proof.
  apply (records_and_flags_persist sample_builtins default_config _
           tracked_store "ac1" tracked_rec).
  reflexivity.
Defined.

(** ** One invocation, one unit, at most two messages *)

(** X12. A handler invocation publishes at most the announcement of the
    unit named by its topic followed by at most one wattage, and that
    wattage goes to the power topic of that same unit. *)
Theorem invocation_publishes_at_most_two
    (B : Builtins) (cfg : Config) (c : call) (σ : gmap string unit_rec) :
  outbox_of (handle B cfg c σ) = []
  ∨ ∃ unit ds ps,
      after_slash (topic_of c) = Some unit
      ∧ outbox_of (handle B cfg c σ) = ds ++ ps
      ∧ (ds = [] ∨ ∃ dtopic dpayload, ds = [Discovery unit dtopic dpayload])
      ∧ (ps = [] ∨ ∃ w, ps = [PowerState unit (power_topic unit) w]).
Proof.
  destruct c as [topic payload_obj clock|topic payload_obj clock];
    cbn [handle topic_of].
  - destruct (after_slash topic) as [unit|] eqn:Hu;
      [|left; by rewrite energy_tick_no_unit].
    right. exists unit.
    destruct (energy_tick_closed B cfg topic payload_obj clock σ unit Hu)
      as (dt & dp & ->).
    destruct (payload_obj !! "Wh" ≫= py_int B) as [wh|];
      cbn [outbox_of snd].
    + eexists _, _. split; [done|]. split; [done|]. split.
      * destruct (discovered (rec_of unit σ)); eauto.
      * destruct (update_cases B cfg unit wh clock (upd unit mark_discovered σ))
          as [[_ ->]|[(t & _ & _ & _ & ->)|[(t & _ & _ & _ & _ & ->)
              |[(l & t & _ & _ & _ & _ & _ & ->)
               |(l & t & _ & _ & _ & _ & ->)]]]];
          cbn [outbox_of snd]; eauto.
    + eexists _, []. rewrite app_nil_r. split; [done|]. split; [done|].
      split; [|by left]. destruct (discovered (rec_of unit σ)); eauto.
  - destruct (ENABLE_COMP_FALLBACK cfg) eqn:He;
      [|left; by rewrite comp_estimate_disabled].
    destruct (after_slash topic) as [unit|] eqn:Hu;
      [|left; by rewrite comp_estimate_no_unit].
    right. exists unit.
    destruct (comp_estimate_closed B cfg topic payload_obj clock σ unit He Hu)
      as (dt & dp & ->). cbn zeta.
    destruct (decide (_ ∧ _)); cbn [outbox_of snd].
    + eexists _, []. rewrite app_nil_r. split; [done|]. split; [done|].
      split; [|by left]. destruct (discovered (rec_of unit σ)); eauto.
    + eexists _, _. split; [done|]. split; [done|]. split; [|eauto].
      destruct (discovered (rec_of unit σ)); eauto.
Qed.

(** ** Bounds and life cycle of a tick *)

Section TickLife.
Context (B : Builtins) (cfg : Config).
Implicit Types (σ : gmap string unit_rec) (unit : string) (r : unit_rec).
Local Open Scope Qc_scope.




(** X14. Life of a tick taken at a positive time for an increase that
    [float] accepts: it stores a hold that ends no earlier than the tick;
    readings that repeat its energy are silent up to and including the
    stored [hold_until]; the first one strictly later publishes 0 W once, and
    every repeat after that is silent again, whenever it comes. *)
Theorem tick_holds_then_expires_once unit wh l t ts σ r :
  σ !! unit = Some r → last_wh r = Some l → last_ts r = Some t → (l < wh)%Z →
  (wh - l < float_overflow)%Z → 0 < ts →
  ∃ h, hold_until
         (rec_of unit (store_of (_update_from_energy B cfg unit wh ts σ)))
         = Some h
       ∧ ts ≤ h
       ∧ (∀ now, now ≤ h →
            _update_from_energy B cfg unit wh now
              (store_of (_update_from_energy B cfg unit wh ts σ))
            = (Returned (),
               store_of (_update_from_energy B cfg unit wh ts σ), []))
       ∧ (∀ now later, h < now →
            outbox_of
              (_update_from_energy B cfg unit wh now
                 (store_of (_update_from_energy B cfg unit wh ts σ)))
              = [PowerState unit (power_topic unit) 0]
            ∧ outbox_of
                (_update_from_energy B cfg unit wh later
                   (store_of
                      (_update_from_energy B cfg unit wh now
                         (store_of
                            (_update_from_energy B cfg unit wh ts σ)))))
              = []).
Proof.
  intros Hr Hl Ht Hlt Hrange Hts.
  rewrite (update_tick_run B cfg _ _ _ _ _ _ _ Hr Hl Ht Hlt Hrange).
  cbn [store_of fst snd].
  set (h := ts + hold_duration B cfg (tick_dt t ts)).
  set (r1 := {| last_wh := Some wh; last_ts := Some ts; hold_until := Some h;
                last_w := Some (clamp_watts cfg (tick_watts l t wh ts));
                discovered := discovered r |}).
  assert (<[unit := r1]> σ !! unit = Some r1) as Hr1
    by apply lookup_insert_eq.
  assert (0 ≤ hold_duration B cfg (tick_dt t ts)) as Hhold.
  { unfold hold_duration. destruct (py_float B (MARGIN_FACTOR cfg));
      apply Qcmax_ge_l. }
  exists h. rewrite rec_of_insert. split; [done|]. split; [|split].
  - unfold h. rewrite <- (Qcplus_0_r ts) at 1. by apply Qcplus_le_mono_l.
  - intros now Hnow.
    apply update_same_energy_kept with ts r1; [done..|].
    intros [_ Hexp]. cbn in Hexp. by apply Qclt_not_le in Hexp.
  - intros now later Hnow.
    assert (hold_expired r1 now) as He.
    { split; [|exact Hnow]. cbn. intros E.
      assert (0 < h) as Hh
        by (unfold h; by apply Qcplus_pos_nonneg).
      rewrite E in Hh. by apply Qclt_irrefl in Hh. }
    rewrite (update_same_energy_expired B cfg unit wh ts now _ r1 Hr1);
      [|done..].
    split; [done|]. cbn [store_of fst snd].
    rewrite (update_same_energy_kept B cfg unit wh ts later _
               {| last_wh := Some wh; last_ts := Some ts;
                  hold_until := Some 0; last_w := Some 0;
                  discovered := discovered r1 |});
      [done|apply lookup_insert_eq|done|done|].
    intros [Hne _]. by apply Hne.
Qed.
End TickLife.


Lemma tick_holds_then_expires_once_witness :
  ∃ h, hold_until
         (rec_of "ac1"
            (store_of (_update_from_energy sample_builtins default_config
                         "ac1" 200 (Qc_of_Z 1010) tracked_store)))
         = Some h
       ∧ (Qc_of_Z 1010 ≤ h)%Qc
       ∧ ∀ now later, (h < now)%Qc →
           outbox_of
             (_update_from_energy sample_builtins default_config "ac1" 200 now
                (store_of (_update_from_energy sample_builtins default_config
                             "ac1" 200 (Qc_of_Z 1010) tracked_store)))
             = [PowerState "ac1" (power_topic "ac1") 0%Qc]
           ∧ outbox_of
               (_update_from_energy sample_builtins default_config "ac1" 200
                  later
                  (store_of
                     (_update_from_energy sample_builtins default_config "ac1"
                        200 now
                        (store_of
                           (_update_from_energy sample_builtins default_config
                              "ac1" 200 (Qc_of_Z 1010) tracked_store)))))
             = [].
Proof.
  destruct (tick_holds_then_expires_once sample_builtins default_config "ac1"
              200 100 (Qc_of_Z 1000) (Qc_of_Z 1010) tracked_store tracked_rec)
    as (h & H1 & H2 & _ & H4);
    [reflexivity|reflexivity|reflexivity|lia|reflexivity|qc_lt|].
  exists h. split; [exact H1|]. split; [exact H2|exact H4].
Defined.

(** ** Discovery *)

Section DiscoveryFacts.
Context (B : Builtins) (cfg : Config).
Implicit Types (σ : gmap string unit_rec) (unit : string).
Local Open Scope Qc_scope.

(** The announcement of a unit not yet announced, field by field. *)
Lemma discovery_fresh unit dev_id url σ :
  discovered (rec_of unit σ) = false →
  ∃ dtopic dpayload,
    _discovery cfg unit dev_id url σ =
      (Returned (), upd unit set_discovered σ, [Discovery unit dtopic dpayload])
    ∧ dtopic = DISCOVERY_PREFIX cfg +:+ "/sensor/" +:+ (unit +:+ "_power")
               +:+ "/config"
    ∧ dp_state_topic dpayload = power_topic unit
    ∧ dp_unique_id dpayload = dev_id +:+ "_power"
    ∧ dp_availability_topic dpayload = STATUS_PREFIX cfg +:+ "/" +:+ unit
    ∧ dev_identifiers (dp_device dpayload) = [dev_id].
Proof.
  intros Hd. unfold _discovery. rewrite bind_run, setdefault_run.
  cbn [value_of store_of outbox_of fst snd]. rewrite Hd.
  do 2 eexists. split; [by repeat run_step|]. by cbn.
Qed.

(** X15. The first parseable energy tick of a unit that has no dict yet
    publishes the announcement and then 0 W, in that order.  The
    announcement names as state topic the very topic the wattage goes to, as
    availability topic the status topic of the unit, and as device identifier
    the id of the payload or ["faikin-<unit>"]; the dict is left with the
    reading as baseline. *)
Theorem first_tick_announces_then_publishes_zero
    (topic unit : string) (payload_obj : gmap string pyval) (wh : Z)
    (clock : Qc) (σ : gmap string unit_rec) :
  after_slash topic = Some unit → σ !! unit = None →
  payload_obj !! "Wh" ≫= py_int B = Some wh →
  ∃ dtopic dpayload,
    outbox_of (faikin_energy_tick B cfg topic payload_obj clock σ)
      = [Discovery unit dtopic dpayload;
         PowerState unit (power_topic unit) 0]
    ∧ dp_state_topic dpayload = power_topic unit
    ∧ dp_availability_topic dpayload = STATUS_PREFIX cfg +:+ "/" +:+ unit
    ∧ dev_identifiers (dp_device dpayload) = [device_id B unit payload_obj]
    ∧ store_of (faikin_energy_tick B cfg topic payload_obj clock σ) !! unit
      = Some {| last_wh := Some wh; last_ts := Some clock;
                hold_until := Some 0; last_w := Some 0;
                discovered := true |}.
Proof.
  intros Hu Hnone Hwh.
  assert (rec_of unit σ = empty_rec) as Hrec by (unfold rec_of; by rewrite Hnone).
  destruct (discovery_fresh unit (device_id B unit payload_obj)
              (Some (local_url unit)) σ)
    as (dtopic & dpayload & Hd & _ & Hst & _ & Hav & Hid);
    [by rewrite Hrec|].
  exists dtopic, dpayload.
  unfold faikin_energy_tick. rewrite Hu, bind_run, Hd, Hwh.
  cbn [value_of store_of outbox_of fst snd].
  destruct (update_cases B cfg unit wh clock (upd unit set_discovered σ))
    as [[_ ->]|[(t & Hl & _)|[(t & Hl & _)
        |[(l & t & Hl & _)|(l & t & Hl & _)]]]];
    rewrite ?rec_of_upd, ?Hrec in *; try discriminate Hl.
  cbn [store_of outbox_of fst snd]. repeat (split; [done|]).
  by rewrite lookup_insert_eq.
Qed.

(** X16. [_discovery] is idempotent: run again for the same unit, with any
    device id and URL, it publishes nothing and leaves the store as the first
    run left it; and it never changes an estimation field. *)
Theorem discovery_is_idempotent
    (unit dev_id dev_id' : string) (url url' : option string)
    (σ : gmap string unit_rec) :
  _discovery cfg unit dev_id' url'
    (store_of (_discovery cfg unit dev_id url σ))
  = (Returned (), store_of (_discovery cfg unit dev_id url σ), [])
  ∧ ∀ u, estimation_fields
           (rec_of u (store_of (_discovery cfg unit dev_id url σ)))
         = estimation_fields (rec_of u σ).
Proof.
  destruct (discovery_closed cfg unit dev_id url σ) as (dt & dp & ->).
  cbn [store_of fst snd].
  assert (discovered (rec_of unit (upd unit mark_discovered σ)) = true) as Hd.
  { rewrite rec_of_upd. unfold mark_discovered.
    by destruct (discovered (rec_of unit σ)) eqn:E. }
  split.
  - destruct (discovery_closed cfg unit dev_id' url'
                (upd unit mark_discovered σ)) as (dt' & dp' & ->).
    by rewrite Hd, upd_mark_discovered_id.
  - intros u. destruct (decide (unit = u)) as [<-|Hne].
    + rewrite rec_of_upd. unfold mark_discovered.
      by destruct (discovered (rec_of unit σ)).
    + by rewrite rec_of_upd_ne.
Qed.
End DiscoveryFacts.

Lemma first_tick_announces_then_publishes_zero_witness :
  ∃ dtopic dpayload,
    outbox_of (faikin_energy_tick sample_builtins default_config "state/ac1"
                 {[ "Wh" := PyStr "1200" ]} (Qc_of_Z 5) ∅)
      = [Discovery "ac1" dtopic dpayload;
         PowerState "ac1" (power_topic "ac1") 0%Qc]
    ∧ dp_state_topic dpayload = power_topic "ac1"
    ∧ dp_availability_topic dpayload = "state" +:+ "/" +:+ "ac1"
    ∧ dev_identifiers (dp_device dpayload) = ["faikin-ac1"]
    ∧ store_of (faikin_energy_tick sample_builtins default_config "state/ac1"
                  {[ "Wh" := PyStr "1200" ]} (Qc_of_Z 5) ∅) !! "ac1"
      = Some {| last_wh := Some 1200%Z; last_ts := Some (Qc_of_Z 5);
                hold_until := Some 0%Qc; last_w := Some 0%Qc;
                discovered := true |}.
Proof.
  destruct (first_tick_announces_then_publishes_zero sample_builtins
              default_config "state/ac1" "ac1" {[ "Wh" := PyStr "1200" ]} 1200
              (Qc_of_Z 5) ∅)
    as (dtopic & dpayload & H1 & H2 & H3 & H4 & H5);
    [reflexivity|reflexivity|reflexivity|].
  exists dtopic, dpayload. split; [exact H1|]. split; [exact H2|].
  split; [exact H3|]. split; [exact H4|exact H5].
Defined.

(** ** Readings *)

Section Readings.
Context (B : Builtins) (cfg : Config).
Implicit Types (σ : gmap string unit_rec) (unit : string).
Local Open Scope Qc_scope.

Lemma Qc_trunc_of_Z (z : Z) : Qc_trunc (Qc_of_Z z) = z.
Proof.
  unfold Qc_trunc. destruct (decide (Qc_of_Z z < 0));
    [apply Qceiling_Z|apply Qfloor_Z].
Qed.

(** X17. An energy field that arrives as a float with an integral value is
    taken for that integer: the tick behaves exactly as with the integer
    itself.  In general [int] of a float drops the fraction towards zero. *)
Theorem float_reading_is_truncated
    (topic : string) (payload_obj : gmap string pyval) (z : Z) (clock : Qc)
    (σ : gmap string unit_rec) :
  faikin_energy_tick B cfg topic (<["Wh" := PyFloat (Qc_of_Z z)]> payload_obj)
    clock σ
  = faikin_energy_tick B cfg topic (<["Wh" := PyInt z]> payload_obj) clock σ
  ∧ (∀ x : Qc, 0 ≤ x →
       Qc_of_Z (Qc_trunc x) ≤ x ∧ x < Qc_of_Z (Qc_trunc x + 1))
  ∧ (∀ x : Qc, x < 0 →
       Qc_of_Z (Qc_trunc x - 1) < x ∧ x ≤ Qc_of_Z (Qc_trunc x)).
Proof.
  split; [|split].
  - unfold faikin_energy_tick. destruct (after_slash topic) as [unit|]; [|done].
    unfold device_id. rewrite !lookup_insert_eq, !lookup_insert_ne by done.
    cbn [mbind option_bind py_int]. by rewrite Qc_trunc_of_Z.
  - intros x Hx. unfold Qc_trunc.
    rewrite decide_False by by apply Qcle_not_lt.
    split; [apply Qfloor_le|apply Qlt_floor].
  - intros x Hx. unfold Qc_trunc. rewrite decide_True by done.
    split; [apply Qceiling_lt|apply Qle_ceiling].
Qed.

(** X18. An update that returns leaves the reading just given as the
    stored reading.  The stored timestamp is then the time of the call,
    except when the reading repeats the stored one: in that case the
    timestamp of the last change is kept, so the next tick is rated over the
    whole time since that change.  An update that does not return raised
    [OverflowError] on an increase beyond the double range, and left store
    and outbox as they were. *)
Theorem update_stores_reading unit wh ts σ :
  (value_of (_update_from_energy B cfg unit wh ts σ) = Returned () →
   last_wh (rec_of unit (store_of (_update_from_energy B cfg unit wh ts σ)))
     = Some wh
   ∧ (last_wh (rec_of unit σ) ≠ Some wh ∨ last_ts (rec_of unit σ) = None →
      last_ts
        (rec_of unit (store_of (_update_from_energy B cfg unit wh ts σ)))
        = Some ts)
   ∧ (last_wh (rec_of unit σ) = Some wh →
      ∀ t, last_ts (rec_of unit σ) = Some t →
      last_ts
        (rec_of unit (store_of (_update_from_energy B cfg unit wh ts σ)))
        = Some t))
  ∧ (value_of (_update_from_energy B cfg unit wh ts σ) ≠ Returned () →
     _update_from_energy B cfg unit wh ts σ = (Raised OverflowError, σ, [])
     ∧ ∃ l, last_wh (rec_of unit σ) = Some l ∧ (float_overflow ≤ wh - l)%Z).
Proof.
  destruct (update_cases B cfg unit wh ts σ)
    as [[Hc ->]|[(t & Hl & Ht & _ & ->)|[(t & Hl & Ht & _ & _ & ->)
        |[(l & t & Hl & Ht & Hlt & Hov & _ & ->)
         |(l & t & Hl & Ht & Hlt & _ & ->)]]]];
    cbn [value_of store_of fst snd]; rewrite ?rec_of_insert; cbn;
    (split; [intros Hret|intros Hraise]); try done.
  - split; [done|]. split; [done|]. intros Hl t Ht.
    destruct Hc as [Hc|[Hc|(l & Hl' & Hlt)]]; [congruence..|].
    rewrite Hl in Hl'. injection Hl' as <-. lia.
  - split; [done|]. split; [|by intros _ t' [= <-]%(eq_trans (eq_sym Ht))].
    intros [?|?]; congruence.
  - split; [done|]. split; [|by intros _ t' [= <-]%(eq_trans (eq_sym Ht))].
    intros [?|?]; congruence.
  - split; [done|]. by exists l.
  - split; [done|]. split; [done|]. intros Hl'.
    rewrite Hl in Hl'. injection Hl' as <-. lia.
Qed.
End Readings.

(** ** The hold duration *)

Section Hold.
Context (B : Builtins) (cfg : Config).
Local Open Scope Qc_scope.

(** X19. The hold never ends before the next tick is due at the last pace:
    for a non-negative tick interval, a margin factor f ≥ 0 gives a hold of
    exactly Δt × (1 + f) ≥ Δt, and without a usable factor a margin m ≥ 0
    gives exactly Δt + m ≥ Δt; a factor f ≤ −1 gives no hold at all. *)
Theorem hold_covers_tick_interval (dt : Qc) :
  0 ≤ dt →
  (∀ f, py_float B (MARGIN_FACTOR cfg) = Some f → 0 ≤ f →
     _compute_hold_seconds B cfg dt = dt * (1 + f)
     ∧ dt ≤ _compute_hold_seconds B cfg dt)
  ∧ (py_float B (MARGIN_FACTOR cfg) = None → 0 ≤ MARGIN_SECONDS_DEFAULT cfg →
     _compute_hold_seconds B cfg dt = dt + MARGIN_SECONDS_DEFAULT cfg
     ∧ dt ≤ _compute_hold_seconds B cfg dt)
  ∧ (∀ f, py_float B (MARGIN_FACTOR cfg) = Some f → f ≤ -1 →
     _compute_hold_seconds B cfg dt = 0).
Proof.
  intros Hdt. rewrite compute_hold_seconds_duration. unfold hold_duration.
  split; [|split].
  - intros f -> Hf.
    assert (dt ≤ dt * (1 + f)) as Hle.
    { rewrite <- (Qcmult_1_r dt) at 1.
      apply Qcmult_le_mono_nonneg_l; [exact Hdt|].
      rewrite <- (Qcplus_0_r 1) at 1. by apply Qcplus_le_mono_l. }
    assert (Qcmax 0 (dt * (1 + f)) = dt * (1 + f)) as ->.
    { unfold Qcmax. rewrite decide_True; [done|].
      eapply Qcle_trans; [exact Hdt|exact Hle]. }
    split; [reflexivity|exact Hle].
  - intros -> Hm.
    assert (dt ≤ dt + MARGIN_SECONDS_DEFAULT cfg) as Hle.
    { rewrite <- (Qcplus_0_r dt) at 1. by apply Qcplus_le_mono_l. }
    assert (Qcmax 0 (dt + MARGIN_SECONDS_DEFAULT cfg)
            = dt + MARGIN_SECONDS_DEFAULT cfg) as ->.
    { unfold Qcmax. rewrite decide_True; [done|].
      eapply Qcle_trans; [exact Hdt|exact Hle]. }
    split; [reflexivity|exact Hle].
  - intros f -> Hf. apply Qcmax_l.
    assert (1 + f ≤ 0) as Hneg.
    { assert (1 + f ≤ 1 + -1) as H by by apply Qcplus_le_mono_l.
      by rewrite Qcplus_opp_r in H. }
    assert (dt * (1 + f) ≤ dt * 0) as H
      by (apply Qcmult_le_mono_nonneg_l; [exact Hdt|exact Hneg]).
    by rewrite Qcmult_0_r in H.
Qed.
End Hold.

(** The default factor 0.5, and a factor 10^400 that [float] rejects: the
    additive margin is used. *)
Lemma hold_covers_tick_interval_witness :
  (_compute_hold_seconds sample_builtins default_config (Qc_of_Z 10)
     = (Qc_of_Z 10 * (1 + half))%Qc
   ∧ (Qc_of_Z 10
      ≤ _compute_hold_seconds sample_builtins default_config (Qc_of_Z 10))%Qc)
  ∧ _compute_hold_seconds sample_builtins huge_factor_config (Qc_of_Z 10)
    = (Qc_of_Z 10 + Qc_of_Z 300)%Qc.
Proof.
  split.
  - destruct (hold_covers_tick_interval sample_builtins default_config
                (Qc_of_Z 10)) as [H _]; [qc_le|].
    apply (H half); [reflexivity|qc_le].
  - destruct (hold_covers_tick_interval sample_builtins huge_factor_config
                (Qc_of_Z 10)) as (_ & H & _); [qc_le|].
    destruct H as [H _]; [reflexivity|qc_le|exact H].
Defined.
